(** * kiss-crypto: the versioned envelope codec and its key derivations

    A shallow embedding of [src/index.ts].  The file has two parts: the
    definitions (the data model, the encoding utilities, the primitives the
    codec calls into, and the eight public operations), then the lemmas and
    the theorems about them.

    Conventions.
    - A [Uint8Array] is a [list byte].
    - A JavaScript string is represented by the sequence of its UTF-8 code
      units, a [string].  The delimiter [":"], the hex digits, the base64
      alphabet and the version tag are ASCII, so [split], [join], [length]
      on hex strings and the comparison against ["001"] read the same on
      UTF-8 code units as on UTF-16 code units.
    - A value that may be [undefined] (a missing element of a destructured
      array, an omitted optional parameter) is an [option].
    - [throw] / a rejected promise is [Throw]; the [null] sentinel of the
      decryption functions is [Ok None].
    - The secure random source is a tape of bytes threaded through every
      operation by the [Promise] monad.
    - [await sodium.ready], the one-time initialisation of the primitive,
      changes no result and is left out. *)

From Stdlib Require Import List String Ascii Strings.Byte NArith ZArith Arith Bool Lia.
Import ListNotations.

Local Open Scope string_scope.
Local Open Scope list_scope.

Ltac Zify.zify_post_hook ::= Z.to_euclidean_division_equations.

(* ================================================================= *)
(** * Part I: definitions                                              *)
(* ================================================================= *)

(** ** Types of [index.ts] *)

Definition HexString := string.
Definition Utf8String := string.
Definition Base64String := string.
Definition EncryptedMessage := string.
Definition Uint8Array := list byte.
Definition EncryptedBlobMessage := Uint8Array.

Definition STRING_PARTITION : ascii := ":"%char.

(** The [Defaults] enum. *)
Module Defaults.
Definition Version : string := "001".
Definition ArgonLength : N := 32.
Definition ArgonSaltLength : N := 16.
Definition ArgonIterations : N := 5.
Definition ArgonMemLimit : N := 67108864.
Definition ArgonOutputKeyBytes : N := 64.
Definition EncryptionKeyLength : N := 32.
Definition EncryptionNonceLength : N := 24.
End Defaults.

(** ** Errors, results and promises *)

(** What an operation can throw.  The first three are the [Error]s raised
    by [index.ts] itself; [DecodingError] is raised by the encoding
    utilities; [PrimitiveError] is whatever a cryptographic primitive
    raises. *)
Inductive Error : Type :=
| InvalidVersion (version : string)
| NonceMustBe48
| NonceBufferMustBe24
| DecodingError
| PrimitiveError (msg : string).

Inductive Result (A : Type) : Type :=
| Ok (a : A)
| Throw (e : Error).
Arguments Ok {A} a.
Arguments Throw {A} e.

(** What a call into a primitive does: it returns or it raises. *)
Inductive Outcome (A : Type) : Type :=
| Returned (a : A)
| Raised (msg : string).
Arguments Returned {A} a.
Arguments Raised {A} msg.

(** The secure random source: an unbounded tape of bytes. *)
Definition Entropy := nat -> byte.

Definition Promise (A : Type) : Type := Entropy -> Result A * Entropy.

Definition resolve {A} (a : A) : Promise A := fun rng => (Ok a, rng).
Definition reject {A} (e : Error) : Promise A := fun rng => (Throw e, rng).
Definition settle {A} (r : Result A) : Promise A := fun rng => (r, rng).

Definition await {A B} (m : Promise A) (k : A -> Promise B) : Promise B :=
  fun rng =>
    match m rng with
    | (Ok a, rng') => k a rng'
    | (Throw e, rng') => (Throw e, rng')
    end.

Notation "x <- m ;; k" := (await m (fun x => k))
  (at level 61, m at next level, right associativity).

(** A call into a primitive; what it raises surfaces as [PrimitiveError]. *)
Definition call {A} (o : Outcome A) : Promise A :=
  match o with
  | Returned a => resolve a
  | Raised msg => reject (PrimitiveError msg)
  end.

(** The settled value of a promise. *)
Definition outcome {A} (p : Result A * Entropy) : Result A := fst p.

(** ** JavaScript string operations used by [index.ts] *)

(** [a < b] on strings: lexicographic on code units, a proper prefix is
    smaller. *)
Fixpoint string_lt (a b : string) : bool :=
  match a, b with
  | _, EmptyString => false
  | EmptyString, String _ _ => true
  | String x a', String y b' =>
      if (N_of_ascii x <? N_of_ascii y)%N then true
      else if (N_of_ascii x =? N_of_ascii y)%N then string_lt a' b'
      else false
  end.

(** [s.split(sep)] for a one-character separator: never empty. *)
Fixpoint split_all (sep : ascii) (s : string) : list string :=
  match s with
  | EmptyString => [EmptyString]
  | String c s' =>
      if Ascii.eqb c sep then EmptyString :: split_all sep s'
      else match split_all sep s' with
           | first :: others => String c first :: others
           | [] => [String c EmptyString]
           end
  end.

(** [s.split(sep, limit)]: the first [limit] fields, the others dropped. *)
Definition split (sep : ascii) (limit : nat) (s : string) : list string :=
  firstn limit (split_all sep s).

(** [fields.join(sep)]. *)
Fixpoint join (sep : ascii) (fields : list string) : string :=
  match fields with
  | [] => EmptyString
  | [f] => f
  | f :: rest => f ++ String sep (join sep rest)
  end.

(** [const [a, b, c] = fields]: a missing element is [undefined]. *)
Definition destructure3 (fields : list string)
  : option string * option string * option string :=
  (nth_error fields 0, nth_error fields 1, nth_error fields 2).

(** [array.slice(from, to)] and [array.slice(from)] for [0 <= from <= to];
    both clamp to the length of the array. *)
Definition slice (from to : nat) (a : Uint8Array) : Uint8Array :=
  firstn (to - from) (skipn from a).
Definition slice_from (from : nat) (a : Uint8Array) : Uint8Array :=
  skipn from a.

(** The number of occurrences of a character. *)
Fixpoint count_char (c : ascii) (s : string) : nat :=
  match s with
  | EmptyString => 0
  | String x s' => (if Ascii.eqb x c then 1 else 0) + count_char c s'
  end.

Fixpoint string_forallb (p : ascii -> bool) (s : string) : bool :=
  match s with
  | EmptyString => true
  | String x s' => p x && string_forallb p s'
  end.

(** ** Encoding utilities ([./utils]) *)

Module Utils.

Definition byte_of_N (n : N) : byte :=
  match Byte.of_N n with Some b => b | None => x00 end.

(** *** Hexadecimal *)

Definition hex_digit (n : N) : ascii :=
  if (n <? 10)%N then ascii_of_N (48 + n) else ascii_of_N (87 + n).

Definition hex_value (c : ascii) : option N :=
  let n := N_of_ascii c in
  if ((48 <=? n) && (n <=? 57))%N then Some (n - 48)%N
  else if ((97 <=? n) && (n <=? 102))%N then Some (n - 87)%N
  else if ((65 <=? n) && (n <=? 70))%N then Some (n - 55)%N
  else None.

Definition is_hex_char (c : ascii) : bool :=
  match hex_value c with Some _ => true | None => false end.

(** Modelled from the spec: [arrayBufferToHexString] of [./utils], the
    lossless conversion of a byte sequence to its hexadecimal text, two
    digits per byte. *)
Fixpoint arrayBufferToHexString (bs : Uint8Array) : HexString :=
  match bs with
  | [] => EmptyString
  | b :: rest =>
      String (hex_digit (Byte.to_N b / 16))
        (String (hex_digit (Byte.to_N b mod 16))
           (arrayBufferToHexString rest))
  end.

Fixpoint from_hex (s : string) : option Uint8Array :=
  match s with
  | EmptyString => Some []
  | String h (String l rest) =>
      match hex_value h, hex_value l, from_hex rest with
      | Some a, Some b, Some bs => Some (byte_of_N (16 * a + b) :: bs)
      | _, _, _ => None
      end
  | String _ EmptyString => None
  end.

(** Modelled from the spec: [hexStringToArrayBuffer] of [./utils], the
    inverse conversion; malformed input (odd length, a character that is
    not a hex digit) fails with a decoding error. *)
Definition hexStringToArrayBuffer (hex : HexString) : Result Uint8Array :=
  match from_hex hex with
  | Some bs => Ok bs
  | None => Throw DecodingError
  end.

(** *** Base64 (standard alphabet, padded) *)

Definition base64_char (n : N) : ascii :=
  if (n <? 26)%N then ascii_of_N (65 + n)
  else if (n <? 52)%N then ascii_of_N (71 + n)
  else if (n <? 62)%N then ascii_of_N (n - 4)
  else if (n =? 62)%N then "+"%char
  else "/"%char.

Definition base64_value (c : ascii) : option N :=
  let n := N_of_ascii c in
  if ((65 <=? n) && (n <=? 90))%N then Some (n - 65)%N
  else if ((97 <=? n) && (n <=? 122))%N then Some (n - 71)%N
  else if ((48 <=? n) && (n <=? 57))%N then Some (n + 4)%N
  else if (n =? 43)%N then Some 62%N
  else if (n =? 47)%N then Some 63%N
  else None.

Definition pad : ascii := "="%char.

Definition is_base64_char (c : ascii) : bool :=
  match base64_value c with Some _ => true | None => Ascii.eqb c pad end.

(** Modelled from the spec: [arrayBufferToBase64] of [./utils], the
    lossless conversion of a byte sequence to base64 text: three bytes
    make four characters, a last group of one or two bytes is padded. *)
Fixpoint arrayBufferToBase64 (bs : Uint8Array) : Base64String :=
  match bs with
  | [] => EmptyString
  | [a] =>
      let x := Byte.to_N a in
      String (base64_char (x / 4))
        (String (base64_char ((x mod 4) * 16))
           (String pad (String pad EmptyString)))
  | [a; b] =>
      let x := Byte.to_N a in
      let y := Byte.to_N b in
      String (base64_char (x / 4))
        (String (base64_char ((x mod 4) * 16 + y / 16))
           (String (base64_char ((y mod 16) * 4))
              (String pad EmptyString)))
  | a :: b :: c :: rest =>
      let x := Byte.to_N a in
      let y := Byte.to_N b in
      let z := Byte.to_N c in
      String (base64_char (x / 4))
        (String (base64_char ((x mod 4) * 16 + y / 16))
           (String (base64_char ((y mod 16) * 4 + z / 64))
              (String (base64_char (z mod 64))
                 (arrayBufferToBase64 rest))))
  end.

Definition is_empty (s : string) : bool :=
  match s with EmptyString => true | String _ _ => false end.

Fixpoint from_base64 (s : string) : option Uint8Array :=
  match s with
  | EmptyString => Some []
  | String c1 (String c2 (String c3 (String c4 rest))) =>
      match base64_value c1, base64_value c2 with
      | Some v1, Some v2 =>
          let b1 := byte_of_N (v1 * 4 + v2 / 16) in
          if Ascii.eqb c3 pad then
            if Ascii.eqb c4 pad && is_empty rest then Some [b1] else None
          else
            match base64_value c3 with
            | Some v3 =>
                let b2 := byte_of_N ((v2 mod 16) * 16 + v3 / 4) in
                if Ascii.eqb c4 pad then
                  if is_empty rest then Some [b1; b2] else None
                else
                  match base64_value c4, from_base64 rest with
                  | Some v4, Some bs =>
                      Some (b1 :: b2 :: byte_of_N ((v3 mod 4) * 64 + v4) :: bs)
                  | _, _ => None
                  end
            | None => None
            end
      | _, _ => None
      end
  | _ => None
  end.

(** Modelled from the spec: [base64ToArrayBuffer] of [./utils], the
    inverse conversion; malformed input (a character outside the base64
    alphabet, a length that is not a multiple of four) fails with a
    decoding error. *)
Definition base64ToArrayBuffer (base64 : Base64String) : Result Uint8Array :=
  match from_base64 base64 with
  | Some bs => Ok bs
  | None => Throw DecodingError
  end.

(** *** UTF-8 *)

Definition between (lo hi : N) (b : byte) : bool :=
  ((lo <=? Byte.to_N b) && (Byte.to_N b <=? hi))%N.

Definition continuation : byte -> bool := between 128 191.

(** The range of the second byte of a three- and of a four-byte
    sequence depends on the first one. *)
Definition second_of_3 (b0 b1 : byte) : bool :=
  if (Byte.to_N b0 =? 224)%N then between 160 191 b1
  else if (Byte.to_N b0 =? 237)%N then between 128 159 b1
  else continuation b1.

Definition second_of_4 (b0 b1 : byte) : bool :=
  if (Byte.to_N b0 =? 240)%N then between 144 191 b1
  else if (Byte.to_N b0 =? 244)%N then between 128 143 b1
  else continuation b1.

(** Well-formed UTF-8: no overlong form, no surrogate, nothing above
    U+10FFFF. *)
Fixpoint utf8_well_formed (bs : Uint8Array) : bool :=
  match bs with
  | [] => true
  | b0 :: r0 =>
      if between 0 127 b0 then utf8_well_formed r0
      else
        match r0 with
        | [] => false
        | b1 :: r1 =>
            if between 194 223 b0 then continuation b1 && utf8_well_formed r1
            else
              match r1 with
              | [] => false
              | b2 :: r2 =>
                  if between 224 239 b0 then
                    second_of_3 b0 b1 && continuation b2 && utf8_well_formed r2
                  else
                    match r2 with
                    | [] => false
                    | b3 :: r3 =>
                        between 240 244 b0 && second_of_4 b0 b1
                        && continuation b2 && continuation b3
                        && utf8_well_formed r3
                    end
              end
        end
  end.

(** Modelled from the spec: [stringToArrayBuffer] of [./utils], the
    UTF-8 encoding of a string; total. *)
Definition stringToArrayBuffer (s : Utf8String) : Uint8Array :=
  list_byte_of_string s.

(** Modelled from the spec: [arrayBufferToString] of [./utils], the
    UTF-8 decoding of a byte sequence; malformed input fails with a
    decoding error. *)
Definition arrayBufferToString (bs : Uint8Array) : Result Utf8String :=
  if utf8_well_formed bs then Ok (string_of_list_byte bs)
  else Throw DecodingError.


(** Modelled from the spec: [concatUint8Arrays] of [./utils], the
    ordered concatenation of byte sequences. *)
Definition concatUint8Arrays (a b c : Uint8Array) : Uint8Array :=
  a ++ b ++ c.

(** *** Random keys *)

(** The next [n] bytes of the random source. *)
Definition randomBytes (n : nat) : Promise Uint8Array :=
  fun rng => (Ok (map rng (seq 0 n)), fun i => rng (n + i)).

(** Modelled from the spec: [generateRandomKey] of [./utils]:
    [length] bytes from the secure random source, hex-encoded. *)
Definition generateRandomKey (length : N) : Promise HexString :=
  bytes <- randomBytes (N.to_nat length) ;;
  resolve (arrayBufferToHexString bytes).

(** A decoder applied to [undefined] fails like on any other input that
    is not the text of a byte sequence. *)
Definition decode_arg {A} (decode : string -> Result A)
    (arg : option string) : Result A :=
  match arg with
  | Some s => decode s
  | None => Throw DecodingError
  end.

End Utils.
Import Utils.

(** ** The primitives ([./libsodium], [fast-sha256]) *)

(** Modelled from the spec: the capability [./libsodium] gives the codec.
    - AEAD encryption of a message under a public nonce and a key, with no
      associated data; the result is the ciphertext with its tag.
    - AEAD decryption of a ciphertext under a public nonce and a key; it
      returns the recovered plaintext, or [null] ([None]) if
      authentication fails.
    - The memory-hard password hash: output length, password, salt,
      iterations, memory limit, algorithm.
    Each one may raise instead of returning (an argument of the wrong
    length, for instance). *)
Class Sodium : Type := {
  crypto_aead_xchacha20poly1305_ietf_encrypt :
    Uint8Array -> Uint8Array -> Uint8Array -> Outcome Uint8Array;
  crypto_aead_xchacha20poly1305_ietf_decrypt :
    Uint8Array -> Uint8Array -> Uint8Array -> Outcome (option Uint8Array);
  crypto_pwhash :
    N -> Uint8Array -> Uint8Array -> N -> N -> N -> Outcome Uint8Array;
  crypto_pwhash_ALG_DEFAULT : N
}.

(** [hkdf(key, salt, info = undefined, length)] of [fast-sha256]. *)
Class Sha256 : Type := {
  hkdf : Uint8Array -> Uint8Array -> option N -> Outcome Uint8Array
}.

(** The contract of an AEAD: under a nonce of 24 bytes and a key of 32
    bytes, encryption returns and decryption under the same nonce and key
    gives the message back. *)
Definition AeadCorrect (sodium : Sodium) : Prop :=
  forall message nonce key,
    List.length nonce = 24 -> List.length key = 32 ->
    exists c,
      crypto_aead_xchacha20poly1305_ietf_encrypt message nonce key = Returned c
      /\ crypto_aead_xchacha20poly1305_ietf_decrypt c nonce key
         = Returned (Some message).

(** ** The operations of [index.ts] *)

Section Codec.

Context {sodium : Sodium} {sha256 : Sha256}.

Definition generateEncryptionKey : Promise HexString :=
  generateRandomKey Defaults.EncryptionKeyLength.

Definition generateSalt : Promise HexString :=
  generateRandomKey Defaults.ArgonSaltLength.

(** *** Private functions *)

Definition xChaChaEncrypt (key : HexString) (plaintext : Utf8String)
    (nonce : HexString) : Promise Base64String :=
  if negb (String.length nonce =? 48)%nat then reject NonceMustBe48
  else
    nonceBuffer <- settle (hexStringToArrayBuffer nonce) ;;
    keyBuffer <- settle (hexStringToArrayBuffer key) ;;
    arrayBuffer <- call (crypto_aead_xchacha20poly1305_ietf_encrypt
                           (stringToArrayBuffer plaintext) nonceBuffer keyBuffer) ;;
    resolve (arrayBufferToBase64 arrayBuffer).

Definition xChaChaEncryptBlob (key : HexString) (plainblob : Uint8Array)
    (nonceBuffer : Uint8Array) : Promise Uint8Array :=
  if negb (List.length nonceBuffer =? 24)%nat then reject NonceBufferMustBe24
  else
    keyBuffer <- settle (hexStringToArrayBuffer key) ;;
    call (crypto_aead_xchacha20poly1305_ietf_encrypt
            plainblob nonceBuffer keyBuffer).

(** The output format ['text'] decodes the recovered plaintext. *)
Definition xChaChaDecrypt (key : HexString) (ciphertext : option Base64String)
    (nonce : option HexString) : Promise (option Utf8String) :=
  cipherBuffer <- settle (decode_arg base64ToArrayBuffer ciphertext) ;;
  nonceBuffer <- settle (decode_arg hexStringToArrayBuffer nonce) ;;
  keyBuffer <- settle (hexStringToArrayBuffer key) ;;
  opened <- call (crypto_aead_xchacha20poly1305_ietf_decrypt
                    cipherBuffer nonceBuffer keyBuffer) ;;
  match opened with
  | None => resolve None
  | Some message =>
      text <- settle (arrayBufferToString message) ;;
      resolve (Some text)
  end.

(** The output format ['uint8array'] returns the bytes as they are. *)
Definition xChaChaDecryptBlob (key : HexString)
    (cipherblob : EncryptedBlobMessage) (nonceBuffer : Uint8Array)
    : Promise (option Uint8Array) :=
  keyBuffer <- settle (hexStringToArrayBuffer key) ;;
  call (crypto_aead_xchacha20poly1305_ietf_decrypt
          cipherblob nonceBuffer keyBuffer).

(** *** Public functions *)

Definition encrypt (key : HexString) (plaintext : Utf8String)
    : Promise EncryptedMessage :=
  nonce <- generateRandomKey Defaults.EncryptionNonceLength ;;
  ciphertext <- xChaChaEncrypt key plaintext nonce ;;
  resolve (join STRING_PARTITION [Defaults.Version; nonce; ciphertext]).

Definition encryptBlob (key : HexString) (plainblob : Uint8Array)
    : Promise EncryptedBlobMessage :=
  nonce <- generateRandomKey Defaults.EncryptionNonceLength ;;
  nonceBuffer <- settle (hexStringToArrayBuffer nonce) ;;
  cipherblob <- xChaChaEncryptBlob key plainblob nonceBuffer ;;
  let versionBuffer := stringToArrayBuffer Defaults.Version in
  resolve (concatUint8Arrays versionBuffer nonceBuffer cipherblob).

(** [version < Defaults.Version] is false when [version] is
    [undefined]. *)
Definition decrypt (key : HexString) (encryptedMessage : EncryptedMessage)
    : Promise (option Utf8String) :=
  let '(version, nonce, ciphertext) :=
    destructure3 (split STRING_PARTITION 3 encryptedMessage) in
  match version with
  | Some v =>
      if string_lt v Defaults.Version then reject (InvalidVersion v)
      else xChaChaDecrypt key ciphertext nonce
  | None => xChaChaDecrypt key ciphertext nonce
  end.

Definition decryptBlob (key : HexString)
    (encryptedMessage : EncryptedBlobMessage) : Promise (option Uint8Array) :=
  let versionLength := String.length Defaults.Version in
  let nonceLength := N.to_nat Defaults.EncryptionNonceLength in
  let versionBuffer := slice 0 versionLength encryptedMessage in
  version <- settle (arrayBufferToString versionBuffer) ;;
  if string_lt version Defaults.Version then reject (InvalidVersion version)
  else
    let nonceBuffer :=
      slice versionLength (versionLength + nonceLength) encryptedMessage in
    let cipherblob :=
      slice_from (versionLength + nonceLength) encryptedMessage in
    xChaChaDecryptBlob key cipherblob nonceBuffer.

Definition hash (key : Utf8String) (salt : HexString) (length : option N)
    : Promise HexString :=
  result <- call (hkdf (stringToArrayBuffer key) (stringToArrayBuffer salt)
                    length) ;;
  resolve (arrayBufferToHexString result).

(** A default parameter: the default stands in for [undefined]. *)
Definition or_default (default : N) (arg : option N) : N :=
  match arg with Some n => n | None => default end.

(** The output format ['hex'] renders the derived bytes in hex. *)
Definition hashPassword (password : Utf8String) (salt : HexString)
    (iterations bytes length : option N) : Promise HexString :=
  let iterations := or_default Defaults.ArgonIterations iterations in
  let bytes := or_default Defaults.ArgonMemLimit bytes in
  let length := or_default Defaults.ArgonLength length in
  saltBuffer <- settle (hexStringToArrayBuffer salt) ;;
  result <- call (crypto_pwhash length (stringToArrayBuffer password)
                    saltBuffer iterations bytes crypto_pwhash_ALG_DEFAULT) ;;
  resolve (arrayBufferToHexString result).

End Codec.

(** ** A reference instance of the primitives

    A small AEAD over which the operations can be run: the ciphertext is
    the message reversed, followed by a 16-byte tag cut from the nonce and
    from the key.  It is not a cipher; it has the interface and the contract of
    one. *)

Module Reference.

Fixpoint bytes_eqb (a b : Uint8Array) : bool :=
  match a, b with
  | [], [] => true
  | x :: a', y :: b' => Byte.eqb x y && bytes_eqb a' b'
  | _, _ => false
  end.

Definition tag (nonce key : Uint8Array) : Uint8Array :=
  firstn 8 nonce ++ firstn 8 key.

Definition lengths_ok (nonce key : Uint8Array) : bool :=
  ((List.length nonce =? 24) && (List.length key =? 32))%nat.

Definition seal (message nonce key : Uint8Array) : Outcome Uint8Array :=
  if lengths_ok nonce key then Returned (rev message ++ tag nonce key)
  else Raised "invalid length".

Definition open (ciphertext nonce key : Uint8Array)
    : Outcome (option Uint8Array) :=
  if lengths_ok nonce key then
    if (List.length ciphertext <? 16)%nat then Raised "ciphertext is too short"
    else
      let n := List.length ciphertext - 16 in
      if bytes_eqb (skipn n ciphertext) (tag nonce key)
      then Returned (Some (rev (firstn n ciphertext)))
      else Returned None
  else Raised "invalid length".

Definition pwhash (length : N) (password salt : Uint8Array)
    (iterations bytes alg : N) : Outcome Uint8Array :=
  Returned (firstn (N.to_nat length)
              (password ++ salt ++ repeat x00 (N.to_nat length))).

Definition expand (key salt : Uint8Array) (length : option N)
    : Outcome Uint8Array :=
  let n := match length with Some n => N.to_nat n | None => 32 end in
  Returned (firstn n (salt ++ key ++ repeat x00 n)).

#[export] Instance sodium : Sodium := {
  crypto_aead_xchacha20poly1305_ietf_encrypt := seal;
  crypto_aead_xchacha20poly1305_ietf_decrypt := open;
  crypto_pwhash := pwhash;
  crypto_pwhash_ALG_DEFAULT := 2
}.

#[export] Instance sha256 : Sha256 := { hkdf := expand }.

(** A random source that counts: 0, 1, 2, ... *)
Definition counting : Entropy := fun i => byte_of_N (N.of_nat i mod 256).

(** A random source of zeros. *)
Definition silent : Entropy := fun _ => x00.

(** The key of 64 zeros, and a key that differs from it. *)
Definition zero_key : HexString :=
  "0000000000000000000000000000000000000000000000000000000000000000".
Definition zero_key_bytes : Uint8Array := repeat x00 32.

(** The first 24 bytes of [counting]; the text envelope of ["hello"] and
    the blob envelope of the bytes [0x68 0x69] under [zero_key], this
    nonce and the AEAD above. *)
Definition sample_nonce : Uint8Array := map counting (seq 0 24).
Definition sample_nonce_hex : HexString :=
  "000102030405060708090a0b0c0d0e0f1011121314151617".
Definition sample_ciphertext : Base64String :=
  "b2xsZWgAAQIDBAUGBwAAAAAAAAAA".
Definition sample_envelope : EncryptedMessage :=
  "001:000102030405060708090a0b0c0d0e0f1011121314151617:b2xsZWgAAQIDBAUGBwAAAAAAAAAA".
Definition sample_blob : EncryptedBlobMessage :=
  [x30; x30; x31] ++ sample_nonce ++ [x69; x68] ++ tag sample_nonce zero_key_bytes.

End Reference.

(** ** Predicates of the statements *)

(** A string without the separator. *)
Definition free_of (sep : ascii) (s : string) : Prop := count_char sep s = 0.

(** A 32-byte key supplied as 64 hex characters. *)
Definition is_key (key : HexString) : bool :=
  (String.length key =? 64)%nat && string_forallb is_hex_char key.

(** The two errors of the nonce-length checks of [index.ts]. *)
Definition nonce_length_error {A} (r : Result A) : bool :=
  match r with
  | Throw NonceMustBe48 | Throw NonceBufferMustBe24 => true
  | _ => false
  end.

(** The errors that come from below [index.ts]: from a decoder or from a
    primitive. *)
Definition from_below (e : Error) : bool :=
  match e with
  | DecodingError | PrimitiveError _ => true
  | _ => false
  end.



(* ================================================================= *)
(** * Part II: lemmas and theorems                                     *)
(* ================================================================= *)

(** ** Bytes and small numbers *)

Lemma byte_to_N_lt (b : byte) : (Byte.to_N b < 256)%N.
Proof. destruct b; reflexivity. Qed.

Lemma byte_of_N_to_N (b : byte) : byte_of_N (Byte.to_N b) = b.
Proof. unfold byte_of_N. now rewrite Byte.of_to_N. Qed.

(** A boolean property checked on [0 .. k-1] holds below [k]. *)
Lemma checked_below (k : nat) (p : N -> bool) :
  forallb p (map N.of_nat (seq 0 k)) = true ->
  forall n, (n < N.of_nat k)%N -> p n = true.
Proof.
  intros Hall n Hn.
  rewrite forallb_forall in Hall. apply Hall.
  rewrite <- (N2Nat.id n). apply in_map. apply in_seq. lia.
Qed.

(** ** Hexadecimal *)

Lemma hex_value_digit (n : N) : (n < 16)%N -> hex_value (hex_digit n) = Some n.
Proof.
  intros Hn.
  assert (H : (match hex_value (hex_digit n) with
               | Some m => N.eqb m n | None => false end) = true).
  { revert n Hn. apply (checked_below 16). reflexivity. }
  destruct (hex_value (hex_digit n)); [|discriminate].
  apply N.eqb_eq in H. now subst.
Qed.

Lemma hex_digit_not_partition (n : N) :
  (n < 16)%N -> Ascii.eqb (hex_digit n) STRING_PARTITION = false.
Proof.
  intros Hn.
  assert (H : negb (Ascii.eqb (hex_digit n) STRING_PARTITION) = true).
  { revert n Hn. apply (checked_below 16). reflexivity. }
  now destruct (Ascii.eqb (hex_digit n) STRING_PARTITION).
Qed.

Lemma is_hex_char_not_partition (c : ascii) :
  is_hex_char c = true -> Ascii.eqb c STRING_PARTITION = false.
Proof.
  destruct (Ascii.eqb c STRING_PARTITION) eqn:E; [|reflexivity].
  apply Ascii.eqb_eq in E. subst. discriminate.
Qed.

Lemma hex_nibbles (b : byte) :
  (Byte.to_N b / 16 < 16)%N /\ (Byte.to_N b mod 16 < 16)%N
  /\ (16 * (Byte.to_N b / 16) + Byte.to_N b mod 16 = Byte.to_N b)%N.
Proof.
  pose proof (byte_to_N_lt b) as Hb. revert Hb.
  generalize (Byte.to_N b). intros n Hn. lia.
Qed.

(** Decoding the hex text of a byte sequence gives the sequence back. *)
Lemma from_hex_to_hex (bs : Uint8Array) :
  from_hex (arrayBufferToHexString bs) = Some bs.
Proof.
  induction bs as [|b bs IH]; [reflexivity|].
  destruct (hex_nibbles b) as (Hh & Hl & Hb).
  cbn [arrayBufferToHexString from_hex].
  rewrite (hex_value_digit _ Hh), (hex_value_digit _ Hl), IH, Hb.
  now rewrite byte_of_N_to_N.
Qed.

Lemma hex_round_trip (bs : Uint8Array) :
  hexStringToArrayBuffer (arrayBufferToHexString bs) = Ok bs.
Proof. unfold hexStringToArrayBuffer. now rewrite from_hex_to_hex. Qed.

Lemma hex_length (bs : Uint8Array) :
  String.length (arrayBufferToHexString bs) = 2 * List.length bs.
Proof. induction bs as [|b bs IH]; cbn [arrayBufferToHexString String.length List.length]; lia. Qed.

Lemma hex_is_hex (bs : Uint8Array) :
  string_forallb is_hex_char (arrayBufferToHexString bs) = true.
Proof.
  induction bs as [|b bs IH]; [reflexivity|].
  destruct (hex_nibbles b) as (Hh & Hl & _).
  cbn [arrayBufferToHexString string_forallb].
  unfold is_hex_char at 1 2.
  now rewrite (hex_value_digit _ Hh), (hex_value_digit _ Hl), IH.
Qed.

(** What decodes as hex is made of hex digits, two per byte. *)
Lemma from_hex_shape (s : string) (bs : Uint8Array) :
  from_hex s = Some bs ->
  string_forallb is_hex_char s = true /\ String.length s = 2 * List.length bs.
Proof.
  revert bs.
  induction s as [s IH] using (well_founded_induction
    (Wf_nat.well_founded_ltof _ String.length)).
  intros bs. destruct s as [|h [|l rest]]; cbn [from_hex].
  - intros [= <-]. split; reflexivity.
  - discriminate.
  - destruct (hex_value h) eqn:Eh; [|discriminate].
    destruct (hex_value l) eqn:El; [|discriminate].
    destruct (from_hex rest) as [bs'|] eqn:Er; [|discriminate].
    intros [= <-].
    destruct (IH rest) with (bs := bs') as [Hf Hlen];
      [unfold ltof; cbn; lia | exact Er |].
    cbn [string_forallb String.length List.length]. unfold is_hex_char at 1 2.
    rewrite Eh, El, Hf. split; [reflexivity | lia].
Qed.

(** ** Base64 *)

Lemma base64_value_char (n : N) :
  (n < 64)%N -> base64_value (base64_char n) = Some n.
Proof.
  intros Hn.
  assert (H : (match base64_value (base64_char n) with
               | Some m => N.eqb m n | None => false end) = true).
  { revert n Hn. apply (checked_below 64). reflexivity. }
  destruct (base64_value (base64_char n)); [|discriminate].
  apply N.eqb_eq in H. now subst.
Qed.

Lemma base64_char_not_pad (n : N) :
  (n < 64)%N -> Ascii.eqb (base64_char n) pad = false.
Proof.
  intros Hn.
  assert (H : negb (Ascii.eqb (base64_char n) pad) = true).
  { revert n Hn. apply (checked_below 64). reflexivity. }
  now destruct (Ascii.eqb (base64_char n) pad).
Qed.

Lemma is_base64_char_not_partition (c : ascii) :
  is_base64_char c = true -> Ascii.eqb c STRING_PARTITION = false.
Proof.
  destruct (Ascii.eqb c STRING_PARTITION) eqn:E; [|reflexivity].
  apply Ascii.eqb_eq in E. subst. discriminate.
Qed.

Lemma is_base64_char_char (n : N) :
  (n < 64)%N -> is_base64_char (base64_char n) = true.
Proof. intros Hn. unfold is_base64_char. now rewrite base64_value_char. Qed.

Lemma is_base64_char_pad : is_base64_char pad = true.
Proof. reflexivity. Qed.

(** The four sextets of three bytes, and the way back. *)
Lemma sextet1 (x : N) : (x < 256 -> x / 4 < 64)%N.
Proof. lia. Qed.
Lemma sextet2 (x y : N) :
  (x < 256 -> y < 256 -> (x mod 4) * 16 + y / 16 < 64)%N.
Proof. lia. Qed.
Lemma sextet3 (y z : N) :
  (y < 256 -> z < 256 -> (y mod 16) * 4 + z / 64 < 64)%N.
Proof. lia. Qed.
Lemma sextet4 (z : N) : (z mod 64 < 64)%N.
Proof. lia. Qed.
Lemma sextet2_last (x : N) : ((x mod 4) * 16 < 64)%N.
Proof. lia. Qed.
Lemma sextet3_last (y : N) : ((y mod 16) * 4 < 64)%N.
Proof. lia. Qed.

Lemma octet1 (x y : N) :
  (x < 256 -> y < 256 ->
   (x / 4) * 4 + ((x mod 4) * 16 + y / 16) / 16 = x)%N.
Proof. lia. Qed.
Lemma octet2 (x y z : N) :
  (x < 256 -> y < 256 -> z < 256 ->
   (((x mod 4) * 16 + y / 16) mod 16) * 16
   + ((y mod 16) * 4 + z / 64) / 4 = y)%N.
Proof. lia. Qed.
Lemma octet3 (y z : N) :
  (y < 256 -> z < 256 ->
   (((y mod 16) * 4 + z / 64) mod 4) * 64 + z mod 64 = z)%N.
Proof. lia. Qed.
Lemma octet1_last (x : N) :
  (x < 256 -> (x / 4) * 4 + ((x mod 4) * 16) / 16 = x)%N.
Proof. lia. Qed.
Lemma octet2_last (x y : N) :
  (x < 256 -> y < 256 ->
   (((x mod 4) * 16 + y / 16) mod 16) * 16 + ((y mod 16) * 4) / 4 = y)%N.
Proof. lia. Qed.

Lemma sextets (a b c : byte) :
  let x := Byte.to_N a in
  let y := Byte.to_N b in
  let z := Byte.to_N c in
  let s1 := (x / 4)%N in
  let s2 := ((x mod 4) * 16 + y / 16)%N in
  let s3 := ((y mod 16) * 4 + z / 64)%N in
  let s4 := (z mod 64)%N in
  ((s1 < 64 /\ s2 < 64 /\ s3 < 64 /\ s4 < 64)
   /\ s1 * 4 + s2 / 16 = x
   /\ (s2 mod 16) * 16 + s3 / 4 = y
   /\ (s3 mod 4) * 64 + s4 = z)%N.
Proof.
  pose proof (byte_to_N_lt a) as Ha. pose proof (byte_to_N_lt b) as Hb.
  pose proof (byte_to_N_lt c) as Hc. cbv zeta.
  repeat match goal with |- _ /\ _ => split end;
    auto using sextet1, sextet2, sextet3, sextet4, octet1, octet2, octet3.
Qed.

Lemma sextets_of_one (a : byte) :
  let x := Byte.to_N a in
  ((x / 4 < 64 /\ (x mod 4) * 16 < 64)
   /\ (x / 4) * 4 + ((x mod 4) * 16) / 16 = x)%N.
Proof.
  pose proof (byte_to_N_lt a) as Ha. cbv zeta.
  repeat match goal with |- _ /\ _ => split end;
    auto using sextet1, sextet2_last, octet1_last.
Qed.

Lemma sextets_of_two (a b : byte) :
  let x := Byte.to_N a in
  let y := Byte.to_N b in
  let s2 := ((x mod 4) * 16 + y / 16)%N in
  let s3 := ((y mod 16) * 4)%N in
  ((x / 4 < 64 /\ s2 < 64 /\ s3 < 64)
   /\ (x / 4) * 4 + s2 / 16 = x
   /\ (s2 mod 16) * 16 + s3 / 4 = y)%N.
Proof.
  pose proof (byte_to_N_lt a) as Ha. pose proof (byte_to_N_lt b) as Hb.
  cbv zeta.
  repeat match goal with |- _ /\ _ => split end;
    auto using sextet1, sextet2, sextet3_last, octet1, octet2_last.
Qed.

(** Decoding the base64 text of a byte sequence gives the sequence back. *)
Lemma from_base64_to_base64 (bs : Uint8Array) :
  from_base64 (arrayBufferToBase64 bs) = Some bs.
Proof.
  induction bs as [bs IH] using (well_founded_induction
    (Wf_nat.well_founded_ltof _ (@List.length byte))).
  destruct bs as [|a [|b [|c rest]]].
  - reflexivity.
  - destruct (sextets_of_one a) as ((H1 & H2) & Ha).
    cbn [arrayBufferToBase64 from_base64].
    rewrite (base64_value_char _ H1), (base64_value_char _ H2).
    rewrite Ascii.eqb_refl. cbn [is_empty andb].
    now rewrite Ha, byte_of_N_to_N.
  - destruct (sextets_of_two a b) as ((H1 & H2 & H3) & Ha & Hb).
    cbn [arrayBufferToBase64 from_base64].
    rewrite (base64_value_char _ H1), (base64_value_char _ H2),
      (base64_value_char _ H3), (base64_char_not_pad _ H3).
    rewrite Ascii.eqb_refl. cbn [is_empty].
    now rewrite Ha, Hb, !byte_of_N_to_N.
  - destruct (sextets a b c) as ((H1 & H2 & H3 & H4) & Ha & Hb & Hc).
    cbn [arrayBufferToBase64 from_base64].
    rewrite (base64_value_char _ H1), (base64_value_char _ H2),
      (base64_value_char _ H3), (base64_value_char _ H4),
      (base64_char_not_pad _ H3), (base64_char_not_pad _ H4).
    rewrite (IH rest) by (unfold ltof; cbn; lia).
    now rewrite Ha, Hb, Hc, !byte_of_N_to_N.
Qed.

Lemma base64_round_trip (bs : Uint8Array) :
  base64ToArrayBuffer (arrayBufferToBase64 bs) = Ok bs.
Proof. unfold base64ToArrayBuffer. now rewrite from_base64_to_base64. Qed.

Lemma base64_is_base64 (bs : Uint8Array) :
  string_forallb is_base64_char (arrayBufferToBase64 bs) = true.
Proof.
  induction bs as [bs IH] using (well_founded_induction
    (Wf_nat.well_founded_ltof _ (@List.length byte))).
  destruct bs as [|a [|b [|c rest]]].
  - reflexivity.
  - destruct (sextets_of_one a) as ((H1 & H2) & _).
    cbn [arrayBufferToBase64 string_forallb].
    now rewrite (is_base64_char_char _ H1), (is_base64_char_char _ H2).
  - destruct (sextets_of_two a b) as ((H1 & H2 & H3) & _).
    cbn [arrayBufferToBase64 string_forallb].
    now rewrite (is_base64_char_char _ H1), (is_base64_char_char _ H2),
      (is_base64_char_char _ H3).
  - destruct (sextets a b c) as ((H1 & H2 & H3 & H4) & _).
    cbn [arrayBufferToBase64 string_forallb].
    rewrite (is_base64_char_char _ H1), (is_base64_char_char _ H2),
      (is_base64_char_char _ H3), (is_base64_char_char _ H4).
    apply (IH rest). unfold ltof; cbn; lia.
Qed.

(** What decodes as base64 is made of base64 characters. *)
Lemma from_base64_shape (s : string) (bs : Uint8Array) :
  from_base64 s = Some bs -> string_forallb is_base64_char s = true.
Proof.
  revert bs.
  induction s as [s IH] using (well_founded_induction
    (Wf_nat.well_founded_ltof _ String.length)).
  intros bs. destruct s as [|c1 [|c2 [|c3 [|c4 rest]]]]; cbn [from_base64];
    try discriminate; [reflexivity|].
  cbn [string_forallb]. unfold is_base64_char at 1 2 3 4.
  destruct (base64_value c1); [|discriminate].
  destruct (base64_value c2); [|discriminate].
  destruct (Ascii.eqb c3 pad) eqn:E3.
  - destruct (Ascii.eqb c4 pad) eqn:E4; [|discriminate].
    destruct rest; [|discriminate]. intros _.
    destruct (base64_value c3), (base64_value c4); reflexivity.
  - destruct (base64_value c3); [|discriminate].
    destruct (Ascii.eqb c4 pad) eqn:E4.
    + destruct rest; [|discriminate]. intros _.
      destruct (base64_value c4); reflexivity.
    + destruct (base64_value c4); [|discriminate].
      destruct (from_base64 rest) as [bs'|] eqn:Er; [|discriminate].
      intros _. apply (IH rest) with (bs := bs'); [unfold ltof; cbn; lia | exact Er].
Qed.

(** ** UTF-8 *)


(** ** Splitting and joining on the delimiter *)

Lemma count_char_app (c : ascii) (a b : string) :
  count_char c (a ++ b) = count_char c a + count_char c b.
Proof. induction a as [|x a IH]; cbn [append count_char]; [reflexivity | rewrite IH; lia]. Qed.

Lemma free_of_forallb (sep : ascii) (p : ascii -> bool) (s : string) :
  (forall c, p c = true -> Ascii.eqb c sep = false) ->
  string_forallb p s = true -> free_of sep s.
Proof.
  intros Hp. unfold free_of. induction s as [|x s IH]; [reflexivity|].
  cbn [string_forallb count_char]. intros H.
  apply andb_true_iff in H as [Hx Hs]. now rewrite (Hp _ Hx), (IH Hs).
Qed.

Lemma hex_free_of_partition (s : string) :
  string_forallb is_hex_char s = true -> free_of STRING_PARTITION s.
Proof. apply free_of_forallb, is_hex_char_not_partition. Qed.

Lemma base64_free_of_partition (s : string) :
  string_forallb is_base64_char s = true -> free_of STRING_PARTITION s.
Proof. apply free_of_forallb, is_base64_char_not_partition. Qed.

Lemma split_all_not_nil (sep : ascii) (s : string) : split_all sep s <> [].
Proof.
  destruct s as [|c s]; cbn [split_all]; [discriminate|].
  destruct (Ascii.eqb c sep); [discriminate|].
  destruct (split_all sep s); discriminate.
Qed.

(** There is one field more than there are delimiters. *)
Lemma split_all_length (sep : ascii) (s : string) :
  List.length (split_all sep s) = S (count_char sep s).
Proof.
  induction s as [|c s IH]; [reflexivity|].
  cbn [split_all count_char]. destruct (Ascii.eqb c sep).
  - cbn [List.length]. now rewrite IH.
  - destruct (split_all sep s); cbn [List.length] in *; lia.
Qed.

Lemma split_all_free (sep : ascii) (s : string) :
  free_of sep s -> split_all sep s = [s].
Proof.
  unfold free_of. induction s as [|c s IH]; [reflexivity|].
  cbn [split_all count_char]. destruct (Ascii.eqb c sep); [discriminate|].
  intros H. now rewrite (IH H).
Qed.

Lemma split_all_app (sep : ascii) (a b : string) :
  free_of sep a ->
  split_all sep (a ++ String sep b) = a :: split_all sep b.
Proof.
  unfold free_of. induction a as [|c a IH]; cbn [append split_all count_char].
  - now rewrite Ascii.eqb_refl.
  - destruct (Ascii.eqb c sep); [discriminate|].
    intros H. now rewrite (IH H).
Qed.

Lemma split_all_fields_free (sep : ascii) (s f : string) :
  In f (split_all sep s) -> free_of sep f.
Proof.
  unfold free_of. revert f. induction s as [|c s IH]; intros f.
  - intros [<-|[]]. reflexivity.
  - cbn [split_all]. destruct (Ascii.eqb c sep) eqn:E.
    + intros [<-|H]; [reflexivity | now apply IH].
    + destruct (split_all sep s) as [|g gs] eqn:Es.
      * intros [<-|[]]. cbn [count_char]. now rewrite E.
      * intros [<-|H].
        -- cbn [count_char]. rewrite E. apply IH. now left.
        -- apply IH. now right.
Qed.

Lemma split_all_join (sep : ascii) (fields : list string) :
  fields <> [] -> Forall (free_of sep) fields ->
  split_all sep (join sep fields) = fields.
Proof.
  induction fields as [|f [|g rest] IH]; [congruence | |]; intros _ Hfree.
  - cbn [join]. apply split_all_free. now inversion Hfree.
  - inversion Hfree as [|? ? Hf Hrest]; subst.
    change (join sep (f :: g :: rest)) with (f ++ String sep (join sep (g :: rest)))%string.
    rewrite (split_all_app _ _ _ Hf). f_equal.
    apply IH; [discriminate | exact Hrest].
Qed.

Lemma join_split_all (sep : ascii) (s : string) :
  join sep (split_all sep s) = s.
Proof.
  induction s as [|c s IH]; [reflexivity|].
  cbn [split_all]. destruct (Ascii.eqb c sep) eqn:E.
  - apply Ascii.eqb_eq in E. subst c.
    pose proof (split_all_not_nil sep s) as Hne.
    destruct (split_all sep s) as [|g gs]; [congruence|].
    change (join sep ("" :: g :: gs)) with (String sep (join sep (g :: gs))).
    now rewrite IH.
  - pose proof (split_all_not_nil sep s) as Hne.
    destruct (split_all sep s) as [|g [|h gs]]; [congruence | |].
    + cbn [join] in *. now rewrite IH.
    + change (join sep (String c g :: h :: gs))
        with (String c (g ++ String sep (join sep (h :: gs)))%string).
      change (join sep (g :: h :: gs))
        with (g ++ String sep (join sep (h :: gs)))%string in IH.
      now rewrite IH.
Qed.

Lemma Forall_firstn {A} (P : A -> Prop) (n : nat) (l : list A) :
  Forall P l -> Forall P (firstn n l).
Proof.
  intros H. revert n.
  induction H as [|x l Hx Hl IH]; intros [|n]; cbn [firstn]; auto.
Qed.

(** Splitting with a limit what was split with that limit and joined
    again changes nothing: the fields dropped the first time are gone. *)
Lemma split_join_split (sep : ascii) (limit : nat) (s : string) :
  limit <> 0 ->
  split sep limit (join sep (split sep limit s)) = split sep limit s.
Proof.
  intros Hlimit. unfold split.
  rewrite split_all_join.
  - rewrite firstn_firstn. f_equal. lia.
  - pose proof (split_all_not_nil sep s).
    destruct limit; [congruence|]. destruct (split_all sep s); [congruence|].
    discriminate.
  - apply Forall_firstn, Forall_forall. intros f. apply split_all_fields_free.
Qed.

Lemma split_three (v n c : string) :
  free_of STRING_PARTITION v -> free_of STRING_PARTITION n ->
  free_of STRING_PARTITION c ->
  split STRING_PARTITION 3 (join STRING_PARTITION [v; n; c]) = [v; n; c].
Proof.
  intros Hv Hn Hc. unfold split. rewrite split_all_join; [reflexivity | discriminate |].
  repeat constructor; assumption.
Qed.

Lemma count_partition_join3 (v n c : string) :
  free_of STRING_PARTITION v -> free_of STRING_PARTITION n ->
  free_of STRING_PARTITION c ->
  count_char STRING_PARTITION (join STRING_PARTITION [v; n; c]) = 2.
Proof.
  unfold free_of. intros Hv Hn Hc. cbn [join].
  rewrite count_char_app. cbn [count_char]. rewrite count_char_app.
  cbn [count_char]. rewrite Ascii.eqb_refl, Hv, Hn, Hc. reflexivity.
Qed.

(** ** Well-formed hex decodes *)

Lemma from_hex_defined (s : string) :
  string_forallb is_hex_char s = true -> Nat.even (String.length s) = true ->
  exists bs, from_hex s = Some bs /\ String.length s = 2 * List.length bs.
Proof.
  induction s as [s IH] using (well_founded_induction
    (Wf_nat.well_founded_ltof _ String.length)).
  destruct s as [|h [|l rest]].
  - intros _ _. now exists [].
  - intros _ Hodd. discriminate.
  - cbn [string_forallb String.length Nat.even from_hex]. intros Hhex Heven.
    apply andb_true_iff in Hhex as [Hh Hhex].
    apply andb_true_iff in Hhex as [Hl Hhex].
    unfold is_hex_char in Hh, Hl.
    destruct (hex_value h); [|discriminate].
    destruct (hex_value l); [|discriminate].
    destruct (IH rest) as (bs & -> & Hlen); [unfold ltof; cbn; lia | assumption..|].
    eexists. split; [reflexivity|]. cbn [List.length]. lia.
Qed.

Lemma key_decodes (key : HexString) :
  is_key key = true ->
  exists keyBuffer,
    hexStringToArrayBuffer key = Ok keyBuffer /\ List.length keyBuffer = 32.
Proof.
  unfold is_key. intros H. apply andb_true_iff in H as [Hlen Hhex].
  apply Nat.eqb_eq in Hlen.
  destruct (from_hex_defined key Hhex) as (bs & Hbs & Hl).
  { now rewrite Hlen. }
  exists bs. unfold hexStringToArrayBuffer. rewrite Hbs. split; [reflexivity | lia].
Qed.

Lemma hex_decode_error (s : string) (e : Error) :
  hexStringToArrayBuffer s = Throw e -> e = DecodingError.
Proof. unfold hexStringToArrayBuffer. destruct (from_hex s); congruence. Qed.

(** ** The comparison of version tags *)

Lemma string_lt_asym (a b : string) :
  string_lt a b = true -> string_lt b a = false.
Proof.
  revert b. induction a as [|x a IH]; intros [|y b]; cbn [string_lt];
    try reflexivity; try discriminate.
  destruct (N_of_ascii x <? N_of_ascii y)%N eqn:Hlt.
  - intros _. apply N.ltb_lt in Hlt.
    destruct (N_of_ascii y <? N_of_ascii x)%N eqn:Hgt;
      [apply N.ltb_lt in Hgt; lia|].
    destruct (N_of_ascii y =? N_of_ascii x)%N eqn:Heq;
      [apply N.eqb_eq in Heq; lia | reflexivity].
  - destruct (N_of_ascii x =? N_of_ascii y)%N eqn:Heq; [|discriminate].
    apply N.eqb_eq in Heq. rewrite Heq in Hlt. rewrite Heq, Hlt, N.eqb_refl.
    apply IH.
Qed.

(** ** The reference AEAD keeps the contract *)

Lemma bytes_eqb_refl (a : Uint8Array) : Reference.bytes_eqb a a = true.
Proof.
  induction a as [|x a IH]; [reflexivity|].
  cbn [Reference.bytes_eqb]. rewrite IH.
  now destruct x.
Qed.

Lemma reference_tag_length (nonce key : Uint8Array) :
  List.length nonce = 24 -> List.length key = 32 ->
  List.length (Reference.tag nonce key) = 16.
Proof.
  intros Hn Hk. unfold Reference.tag.
  rewrite length_app, !length_firstn. lia.
Qed.

Lemma reference_aead_correct : AeadCorrect Reference.sodium.
Proof.
  intros message nonce key Hn Hk.
  exists (rev message ++ Reference.tag nonce key).
  pose proof (reference_tag_length nonce key Hn Hk) as Ht.
  cbn [crypto_aead_xchacha20poly1305_ietf_encrypt
       crypto_aead_xchacha20poly1305_ietf_decrypt Reference.sodium].
  unfold Reference.seal, Reference.open, Reference.lengths_ok.
  rewrite Hn, Hk. cbn [Nat.eqb andb]. split; [reflexivity|].
  rewrite length_app, Ht.
  destruct (Nat.ltb_spec (List.length (rev message) + 16) 16) as [Hlt|_]; [lia|].
  replace (List.length (rev message) + 16 - 16) with (List.length (rev message) + 0) by lia.
  rewrite skipn_app, firstn_app, Nat.add_0_r.
  rewrite skipn_all, firstn_all, Nat.sub_diag. cbn [skipn firstn app].
  rewrite app_nil_r, bytes_eqb_refl, rev_involutive. reflexivity.
Qed.

(** ** Running the operations *)

Ltac run := unfold outcome, await, settle, call, resolve, reject; cbv beta.

Section CodecFacts.

Context {sodium : Sodium} {sha256 : Sha256}.

Lemma nonce_hex_length (rng : Entropy) :
  String.length (arrayBufferToHexString (map rng (seq 0 24))) = 48.
Proof. rewrite hex_length, length_map, length_seq. reflexivity. Qed.

(** [encrypt] draws 24 bytes, then depends on the key and on the
    primitive only. *)
Lemma encrypt_run (key : HexString) (plaintext : Utf8String) (rng : Entropy) :
  encrypt key plaintext rng =
  let nonceBuffer := map rng (seq 0 24) in
  (match hexStringToArrayBuffer key with
   | Throw e => Throw e
   | Ok keyBuffer =>
       match crypto_aead_xchacha20poly1305_ietf_encrypt
               (stringToArrayBuffer plaintext) nonceBuffer keyBuffer with
       | Raised msg => Throw (PrimitiveError msg)
       | Returned c =>
           Ok (join STRING_PARTITION
                 [Defaults.Version; arrayBufferToHexString nonceBuffer;
                  arrayBufferToBase64 c])
       end
   end, fun i => rng (24 + i)).
Proof.
  unfold encrypt, generateRandomKey, randomBytes.
  change (N.to_nat Defaults.EncryptionNonceLength) with 24.
  run. unfold xChaChaEncrypt. rewrite nonce_hex_length.
  change (negb (48 =? 48)%nat) with false. run.
  rewrite hex_round_trip.
  destruct (hexStringToArrayBuffer key) as [keyBuffer|e]; [|reflexivity].
  destruct (crypto_aead_xchacha20poly1305_ietf_encrypt _ _ keyBuffer);
    reflexivity.
Qed.

Lemma encryptBlob_run (key : HexString) (plainblob : Uint8Array)
    (rng : Entropy) :
  encryptBlob key plainblob rng =
  let nonceBuffer := map rng (seq 0 24) in
  (match hexStringToArrayBuffer key with
   | Throw e => Throw e
   | Ok keyBuffer =>
       match crypto_aead_xchacha20poly1305_ietf_encrypt
               plainblob nonceBuffer keyBuffer with
       | Raised msg => Throw (PrimitiveError msg)
       | Returned c =>
           Ok (stringToArrayBuffer Defaults.Version ++ nonceBuffer ++ c)
       end
   end, fun i => rng (24 + i)).
Proof.
  unfold encryptBlob, generateRandomKey, randomBytes.
  change (N.to_nat Defaults.EncryptionNonceLength) with 24.
  run. rewrite hex_round_trip. unfold xChaChaEncryptBlob.
  rewrite length_map, length_seq.
  change (negb (24 =? 24)%nat) with false. run.
  destruct (hexStringToArrayBuffer key) as [keyBuffer|e]; [|reflexivity].
  destruct (crypto_aead_xchacha20poly1305_ietf_encrypt _ _ keyBuffer);
    reflexivity.
Qed.


Lemma xChaChaDecryptBlob_run (key : HexString) (cipherblob nonceBuffer : Uint8Array)
    (rng : Entropy) :
  xChaChaDecryptBlob key cipherblob nonceBuffer rng =
  (match hexStringToArrayBuffer key with
   | Throw e => Throw e
   | Ok keyBuffer =>
       match crypto_aead_xchacha20poly1305_ietf_decrypt
               cipherblob nonceBuffer keyBuffer with
       | Raised msg => Throw (PrimitiveError msg)
       | Returned opened => Ok opened
       end
   end, rng).
Proof.
  unfold xChaChaDecryptBlob. run.
  destruct (hexStringToArrayBuffer key) as [keyBuffer|e]; [|reflexivity].
  destruct (crypto_aead_xchacha20poly1305_ietf_decrypt _ _ _); reflexivity.
Qed.

Lemma xChaChaDecrypt_throws (key : HexString) (ciphertext nonce : option string)
    (rng : Entropy) (e : Error) :
  outcome (xChaChaDecrypt key ciphertext nonce rng) = Throw e ->
  from_below e = true.
Proof.
  unfold xChaChaDecrypt, decode_arg, base64ToArrayBuffer,
    hexStringToArrayBuffer, arrayBufferToString. run.
  destruct ciphertext as [c|]; [destruct (from_base64 c)|];
    cbn [fst]; try (intros [= <-]; reflexivity).
  destruct nonce as [n|]; [destruct (from_hex n)|];
    cbn [fst]; try (intros [= <-]; reflexivity).
  destruct (from_hex key); cbn [fst]; try (intros [= <-]; reflexivity).
  destruct (crypto_aead_xchacha20poly1305_ietf_decrypt _ _ _) as [[m|]|msg];
    cbn [fst]; try (intros [= <-]; reflexivity); try discriminate.
  destruct (utf8_well_formed m); cbn [fst];
    try (intros [= <-]; reflexivity); discriminate.
Qed.

Lemma xChaChaDecryptBlob_throws (key : HexString)
    (cipherblob nonceBuffer : Uint8Array) (rng : Entropy) (e : Error) :
  outcome (xChaChaDecryptBlob key cipherblob nonceBuffer rng) = Throw e ->
  from_below e = true.
Proof.
  rewrite xChaChaDecryptBlob_run. unfold outcome, hexStringToArrayBuffer.
  cbn [fst]. destruct (from_hex key); try (intros [= <-]; reflexivity).
  destruct (crypto_aead_xchacha20poly1305_ietf_decrypt _ _ _);
    try (intros [= <-]; reflexivity); discriminate.
Qed.

(** [decrypt] on an envelope of three fields. *)
Lemma decrypt_three_fields (key : HexString) (version nonce ciphertext : string)
    (rng : Entropy) :
  free_of STRING_PARTITION version -> free_of STRING_PARTITION nonce ->
  free_of STRING_PARTITION ciphertext ->
  decrypt key (join STRING_PARTITION [version; nonce; ciphertext]) rng =
  if string_lt version Defaults.Version
  then (Throw (InvalidVersion version), rng)
  else xChaChaDecrypt key (Some ciphertext) (Some nonce) rng.
Proof.
  intros Hv Hn Hc. unfold decrypt. rewrite (split_three _ _ _ Hv Hn Hc).
  cbn [destructure3 nth_error].
  destruct (string_lt version Defaults.Version); reflexivity.
Qed.

(** [decryptBlob] cuts the envelope at 3 and at 27. *)
Lemma decryptBlob_run (key : HexString) (blob : EncryptedBlobMessage)
    (rng : Entropy) :
  decryptBlob key blob rng =
  match arrayBufferToString (slice 0 3 blob) with
  | Throw e => (Throw e, rng)
  | Ok version =>
      if string_lt version Defaults.Version
      then (Throw (InvalidVersion version), rng)
      else xChaChaDecryptBlob key (slice_from 27 blob) (slice 3 27 blob) rng
  end.
Proof.
  unfold decryptBlob.
  change (String.length Defaults.Version) with 3.
  change (N.to_nat Defaults.EncryptionNonceLength) with 24.
  change (3 + 24) with 27. run.
  destruct (arrayBufferToString (slice 0 3 blob)) as [version|e];
    [|reflexivity].
  destruct (string_lt version Defaults.Version); reflexivity.
Qed.

End CodecFacts.

Lemma Ok_inj {A} (a b : A) : Ok a = Ok b -> a = b.
Proof. congruence. Qed.

(** ** What the decryption functions can throw *)

Section Throws.

Context {sodium : Sodium}.

Lemma decrypt_version (key : HexString) (envelope : EncryptedMessage)
    (rng : Entropy) :
  exists version,
    hd_error (split STRING_PARTITION 3 envelope) = Some version
    /\ decrypt key envelope rng =
       if string_lt version Defaults.Version
       then (Throw (InvalidVersion version), rng)
       else
         xChaChaDecrypt key
           (nth_error (split STRING_PARTITION 3 envelope) 2)
           (nth_error (split STRING_PARTITION 3 envelope) 1) rng.
Proof.
  unfold decrypt, destructure3, split.
  pose proof (split_all_not_nil STRING_PARTITION envelope) as Hne.
  destruct (split_all STRING_PARTITION envelope) as [|version rest];
    [congruence|].
  exists version. cbn [firstn hd_error nth_error]. split; [reflexivity|].
  destruct (string_lt version Defaults.Version); reflexivity.
Qed.

Lemma decrypt_throws (key : HexString) (envelope : EncryptedMessage)
    (rng : Entropy) (e : Error) :
  outcome (decrypt key envelope rng) = Throw e ->
  (exists version,
      e = InvalidVersion version
      /\ hd_error (split STRING_PARTITION 3 envelope) = Some version
      /\ string_lt version Defaults.Version = true)
  \/ from_below e = true.
Proof.
  destruct (decrypt_version key envelope rng) as (version & Hv & ->).
  destruct (string_lt version Defaults.Version) eqn:Hlt.
  - cbn [outcome fst]. intros [= <-]. left. now exists version.
  - intros H. right. eapply xChaChaDecrypt_throws, H.
Qed.

Lemma decryptBlob_throws (key : HexString) (blob : EncryptedBlobMessage)
    (rng : Entropy) (e : Error) :
  outcome (decryptBlob key blob rng) = Throw e ->
  (exists version,
      e = InvalidVersion version
      /\ arrayBufferToString (slice 0 3 blob) = Ok version
      /\ string_lt version Defaults.Version = true)
  \/ from_below e = true.
Proof.
  rewrite decryptBlob_run. unfold arrayBufferToString at 1 2.
  destruct (utf8_well_formed (slice 0 3 blob)).
  - destruct (string_lt _ Defaults.Version) eqn:Hlt.
    + cbn [outcome fst]. intros [= <-]. left. eauto.
    + intros H. right. eapply xChaChaDecryptBlob_throws, H.
  - cbn [outcome fst]. intros [= <-]. now right.
Qed.

Lemma from_below_no_nonce_error {A} (r : Result A) :
  (forall e, r = Throw e ->
             (exists version, e = InvalidVersion version) \/ from_below e = true) ->
  nonce_length_error r = false.
Proof.
  destruct r as [a|e]; [reflexivity|]. intros H.
  destruct (H e eq_refl) as [(version & ->)|Hb]; [reflexivity|].
  destruct e; try reflexivity; discriminate.
Qed.

End Throws.

(** The layout of a blob envelope: 3 version bytes, 24 nonce bytes, the
    ciphertext. *)
Lemma blob_layout (nonceBuffer cipherblob : Uint8Array) :
  List.length nonceBuffer = 24 ->
  let blob := stringToArrayBuffer Defaults.Version ++ nonceBuffer ++ cipherblob in
  slice 0 3 blob = stringToArrayBuffer Defaults.Version
  /\ slice 3 27 blob = nonceBuffer
  /\ slice_from 27 blob = cipherblob.
Proof.
  intros Hlen blob. subst blob. unfold slice, slice_from.
  change (stringToArrayBuffer Defaults.Version) with [x30; x30; x31].
  split; [reflexivity | split].
  - change (firstn 24 (nonceBuffer ++ cipherblob) = nonceBuffer).
    rewrite firstn_app, Hlen, Nat.sub_diag, firstn_all2 by lia.
    apply app_nil_r.
  - change (skipn 24 (nonceBuffer ++ cipherblob) = cipherblob).
    rewrite skipn_app, Hlen, Nat.sub_diag, skipn_all2 by lia.
    reflexivity.
Qed.

(* ================================================================= *)
(** * The claims                                                       *)
(* ================================================================= *)

Section Claims.

Context {sodium : Sodium} {sha256 : Sha256}.


(** C2. Round trip of blobs: under an AEAD that keeps its contract, for
    every key of 32 bytes and every byte sequence, [encryptBlob] returns
    an envelope, and [decryptBlob] with the same key returns exactly the
    byte sequence from it: it does not throw and it does not return
    [null]. *)
Theorem decryptBlob_encryptBlob_round_trip :
  AeadCorrect sodium ->
  forall (key : HexString) (plainblob : Uint8Array) (rng : Entropy),
    is_key key = true ->
    exists envelope rng',
      encryptBlob key plainblob rng = (Ok envelope, rng')
      /\ forall rng2,
           outcome (decryptBlob key envelope rng2) = Ok (Some plainblob).
Proof.
  intros Haead key plainblob rng Hkey.
  destruct (key_decodes key Hkey) as (keyBuffer & Hk & Hklen).
  set (nonceBuffer := map rng (seq 0 24)).
  assert (Hnlen : List.length nonceBuffer = 24)
    by (unfold nonceBuffer; now rewrite length_map, length_seq).
  destruct (Haead plainblob nonceBuffer keyBuffer Hnlen Hklen)
    as (c & Henc & Hdec).
  rewrite encryptBlob_run. cbv zeta. fold nonceBuffer. rewrite Hk, Henc.
  eexists. eexists. split; [reflexivity|]. intros rng2.
  destruct (blob_layout nonceBuffer c Hnlen) as (Hv & Hn & Hc).
  rewrite decryptBlob_run, Hv, Hn, Hc.
  change (arrayBufferToString (stringToArrayBuffer Defaults.Version))
    with (Ok (A := Utf8String) Defaults.Version).
  change (string_lt Defaults.Version Defaults.Version) with false.
  cbv iota. rewrite xChaChaDecryptBlob_run, Hk, Hdec. reflexivity.
Qed.


(** C4. The version check: [decrypt] throws the version error for a
    version [v] exactly when [v] is the first field of the envelope and
    is lexicographically less than ["001"]; [decryptBlob] throws it
    exactly when [v] is the text of the first three bytes and is
    lexicographically less than ["001"].  ["000"] is less than ["001"];
    ["001"] is not; nothing greater than ["001"] is. *)
Theorem version_error_iff_older :
  (forall (key : HexString) (envelope : EncryptedMessage) (rng : Entropy)
          (v : string),
      outcome (decrypt key envelope rng) = Throw (InvalidVersion v)
      <-> hd_error (split STRING_PARTITION 3 envelope) = Some v
          /\ string_lt v "001" = true)
  /\ (forall (key : HexString) (blob : EncryptedBlobMessage) (rng : Entropy)
             (v : string),
      outcome (decryptBlob key blob rng) = Throw (InvalidVersion v)
      <-> arrayBufferToString (slice 0 3 blob) = Ok v
          /\ string_lt v "001" = true)
  /\ string_lt "000" "001" = true
  /\ string_lt "001" "001" = false
  /\ (forall v, string_lt "001" v = true -> string_lt v "001" = false).
Proof.
  split; [|split; [|split; [reflexivity | split; [reflexivity|]]]].
  - intros key envelope rng v. split.
    + intros H. destruct (decrypt_throws _ _ _ _ H) as [(w & [= ->] & Hw)|Hb];
        [exact Hw | discriminate].
    + intros [Hv Hlt].
      destruct (decrypt_version key envelope rng) as (w & Hw & ->).
      rewrite Hv in Hw. injection Hw as <-.
      change Defaults.Version with "001". now rewrite Hlt.
  - intros key blob rng v. split.
    + intros H.
      destruct (decryptBlob_throws _ _ _ _ H) as [(w & [= ->] & Hw)|Hb];
        [exact Hw | discriminate].
    + intros [Hv Hlt]. rewrite decryptBlob_run, Hv.
      change Defaults.Version with "001". now rewrite Hlt.
  - intros v. apply string_lt_asym.
Qed.

(** C5, as amended.  [decrypt] does not count the fields.  It reads the
    first three fields and ignores the others: on every input it does
    what it does on the envelope made of the first three fields of that
    input.  On an input of fewer than three fields it throws: the
    version error if the first field is lexicographically less than
    ["001"], a decoding error for the missing ciphertext otherwise. *)
Theorem decrypt_reads_three_fields :
  forall (key : HexString) (envelope : EncryptedMessage) (rng : Entropy),
    decrypt key envelope rng
    = decrypt key
        (join STRING_PARTITION (split STRING_PARTITION 3 envelope)) rng
    /\ (List.length (split_all STRING_PARTITION envelope) < 3 ->
        forall version,
          hd_error (split_all STRING_PARTITION envelope) = Some version ->
          outcome (decrypt key envelope rng)
          = Throw (if string_lt version "001"
                   then InvalidVersion version else DecodingError)).
Proof.
  intros key envelope rng. split.
  - unfold decrypt. now rewrite split_join_split.
  - intros Hfew version Hversion. unfold decrypt, destructure3, split.
    destruct (split_all STRING_PARTITION envelope) as [|v [|n [|c rest]]];
      cbn [List.length] in Hfew; try lia; try discriminate;
      injection Hversion as ->; cbn [firstn nth_error];
      change Defaults.Version with "001";
      destruct (string_lt version "001"); reflexivity.
Qed.

(** C6. The shape of a text envelope: whatever [encrypt] returns is
    ["001"], [":"], a nonce, [":"], a ciphertext, where the version
    ["001"] has 3 characters, the nonce is 48 hex characters, the
    ciphertext is the base64 text of a byte sequence, and the whole
    contains exactly 2 colons. *)
Theorem encrypt_envelope_shape :
  forall (key : HexString) (plaintext : Utf8String) (rng : Entropy)
         (envelope : EncryptedMessage),
    outcome (encrypt key plaintext rng) = Ok envelope ->
    exists nonce ciphertext,
      envelope = ("001" ++ ":" ++ nonce ++ ":" ++ ciphertext)%string
      /\ String.length Defaults.Version = 3
      /\ String.length nonce = 48
      /\ string_forallb is_hex_char nonce = true
      /\ string_forallb is_base64_char ciphertext = true
      /\ (exists bytes, base64ToArrayBuffer ciphertext = Ok bytes)
      /\ count_char ":" envelope = 2.
Proof.
  intros key plaintext rng envelope. rewrite encrypt_run. cbv zeta.
  cbn [outcome fst].
  destruct (hexStringToArrayBuffer key) as [keyBuffer|e]; [|discriminate].
  destruct (crypto_aead_xchacha20poly1305_ietf_encrypt _ _ keyBuffer)
    as [c|msg]; [|discriminate].
  intros H. apply Ok_inj in H. subst envelope.
  exists (arrayBufferToHexString (map rng (seq 0 24))), (arrayBufferToBase64 c).
  split; [reflexivity|]. split; [reflexivity|].
  split; [apply nonce_hex_length|]. split; [apply hex_is_hex|].
  split; [apply base64_is_base64|].
  split; [exists c; apply base64_round_trip|].
  apply count_partition_join3.
  - reflexivity.
  - apply hex_free_of_partition, hex_is_hex.
  - apply base64_free_of_partition, base64_is_base64.
Qed.

(** C7, at the failing input.  The salt ["zz"] is not valid hex, and
    [hash] does not throw for it: it hands the UTF-8 bytes of the salt,
    [0x7a 0x7a], to the key derivation and returns the hex text of what
    the derivation returns. *)
Theorem hash_accepts_non_hex_salt :
  forall (key : Utf8String) (length : option N) (rng : Entropy),
    hexStringToArrayBuffer "zz" = Throw DecodingError
    /\ outcome (hash key "zz" length rng)
       = match hkdf (stringToArrayBuffer key) [x7a; x7a] length with
         | Returned derived => Ok (arrayBufferToHexString derived)
         | Raised msg => Throw (PrimitiveError msg)
         end.
Proof.
  intros key length rng. split; [reflexivity|].
  unfold hash. run.
  change (stringToArrayBuffer "zz") with [x7a; x7a].
  destruct (hkdf (stringToArrayBuffer key) [x7a; x7a] length); reflexivity.
Qed.

(** The sibling derivation does decode the salt. *)
Lemma hashPassword_rejects_non_hex_salt (password : Utf8String)
    (salt : HexString) (iterations bytes length : option N) (rng : Entropy) :
  from_hex salt = None ->
  outcome (hashPassword password salt iterations bytes length rng)
  = Throw DecodingError.
Proof.
  intros H. unfold hashPassword, hexStringToArrayBuffer. run.
  now rewrite H.
Qed.


(** C9. The nonce check of [encrypt] always passes: the nonce that
    [encrypt] generates has 48 characters, [xChaChaEncrypt] does not
    throw "Nonce must be 48 bytes" on it, and neither does [encrypt],
    for every key, plaintext and state of the random source. *)
Theorem encrypt_nonce_check_passes :
  forall (key : HexString) (plaintext : Utf8String) (rng : Entropy),
    exists nonce rng',
      generateRandomKey Defaults.EncryptionNonceLength rng = (Ok nonce, rng')
      /\ String.length nonce = 48
      /\ nonce_length_error (outcome (xChaChaEncrypt key plaintext nonce rng'))
         = false
      /\ nonce_length_error (outcome (encrypt key plaintext rng)) = false.
Proof.
  intros key plaintext rng.
  exists (arrayBufferToHexString (map rng (seq 0 24))), (fun i => rng (24 + i)).
  split; [reflexivity|]. split; [apply nonce_hex_length|].
  assert (Hrun : forall r,
    nonce_length_error
      (match hexStringToArrayBuffer key with
       | Throw e => Throw e
       | Ok keyBuffer =>
           match crypto_aead_xchacha20poly1305_ietf_encrypt
                   (stringToArrayBuffer plaintext) (map rng (seq 0 24))
                   keyBuffer with
           | Raised msg => Throw (PrimitiveError msg)
           | Returned c => Ok (r c)
           end
       end : Result string) = false).
  { intros r. destruct (hexStringToArrayBuffer key) as [keyBuffer|e] eqn:E.
    - destruct (crypto_aead_xchacha20poly1305_ietf_encrypt _ _ keyBuffer);
        reflexivity.
    - now rewrite (hex_decode_error _ _ E). }
  split.
  - unfold xChaChaEncrypt. rewrite nonce_hex_length.
    change (negb (48 =? 48)%nat) with false. run.
    rewrite hex_round_trip.
    specialize (Hrun arrayBufferToBase64).
    destruct (hexStringToArrayBuffer key) as [keyBuffer|e]; [|exact Hrun].
    destruct (crypto_aead_xchacha20poly1305_ietf_encrypt _ _ keyBuffer);
      reflexivity.
  - rewrite encrypt_run. cbv zeta. cbn [outcome fst]. apply Hrun.
Qed.

(** C10. The decryption paths have no nonce-length check: [decrypt] and
    [decryptBlob] never throw a nonce-length error, and the nonce they
    parse, of whatever length, is what they hand to the AEAD
    decryption. *)
Theorem decrypt_has_no_nonce_length_check :
  (forall (key : HexString) (envelope : EncryptedMessage) (rng : Entropy),
      nonce_length_error (outcome (decrypt key envelope rng)) = false)
  /\ (forall (key : HexString) (blob : EncryptedBlobMessage) (rng : Entropy),
      nonce_length_error (outcome (decryptBlob key blob rng)) = false)
  /\ (forall (key version nonce ciphertext : string)
             (keyBuffer nonceBuffer cipherBuffer : Uint8Array) (rng : Entropy),
      free_of STRING_PARTITION version ->
      string_lt version Defaults.Version = false ->
      hexStringToArrayBuffer key = Ok keyBuffer ->
      hexStringToArrayBuffer nonce = Ok nonceBuffer ->
      base64ToArrayBuffer ciphertext = Ok cipherBuffer ->
      decrypt key (join STRING_PARTITION [version; nonce; ciphertext]) rng
      = (opened <- call (crypto_aead_xchacha20poly1305_ietf_decrypt
                           cipherBuffer nonceBuffer keyBuffer) ;;
         match opened with
         | None => resolve None
         | Some message =>
             text <- settle (arrayBufferToString message) ;;
             resolve (Some text)
         end) rng)
  /\ (forall (key : HexString) (keyBuffer : Uint8Array)
             (blob : EncryptedBlobMessage) (version : string) (rng : Entropy),
      arrayBufferToString (slice 0 3 blob) = Ok version ->
      string_lt version Defaults.Version = false ->
      hexStringToArrayBuffer key = Ok keyBuffer ->
      decryptBlob key blob rng
      = call (crypto_aead_xchacha20poly1305_ietf_decrypt
                (slice_from 27 blob) (slice 3 27 blob) keyBuffer) rng).
Proof.
  split; [|split; [|split]].
  - intros key envelope rng. apply from_below_no_nonce_error. intros e H.
    destruct (decrypt_throws _ _ _ _ H) as [(v & -> & _)|Hb]; eauto.
  - intros key blob rng. apply from_below_no_nonce_error. intros e H.
    destruct (decryptBlob_throws _ _ _ _ H) as [(v & -> & _)|Hb]; eauto.
  - intros key version nonce ciphertext keyBuffer nonceBuffer cipherBuffer
      rng Hfree Hversion Hk Hn Hc.
    rewrite decrypt_three_fields, Hversion.
    + unfold xChaChaDecrypt, decode_arg. run. now rewrite Hc, Hn, Hk.
    + exact Hfree.
    + unfold hexStringToArrayBuffer in Hn.
      destruct (from_hex nonce) as [bs|] eqn:E; [|discriminate].
      apply hex_free_of_partition. eapply from_hex_shape, E.
    + unfold base64ToArrayBuffer in Hc.
      destruct (from_base64 ciphertext) as [bs|] eqn:E; [|discriminate].
      apply base64_free_of_partition. eapply from_base64_shape, E.
  - intros key keyBuffer blob version rng Hv Hversion Hk.
    rewrite decryptBlob_run, Hv, Hversion. unfold xChaChaDecryptBlob. run.
    now rewrite Hk.
Qed.

End Claims.

(* ================================================================= *)
(** * The claims on the reference instance                             *)
(* ================================================================= *)


(** C2 at the key of zeros and the two bytes [0x68 0x69]. *)
Lemma decryptBlob_encryptBlob_round_trip_witness :
  exists envelope rng',
    encryptBlob (sodium := Reference.sodium) Reference.zero_key [x68; x69]
      Reference.counting = (Ok envelope, rng')
    /\ forall rng2,
         outcome (decryptBlob (sodium := Reference.sodium) Reference.zero_key
                    envelope rng2) = Ok (Some [x68; x69]).
Proof.
  apply (@decryptBlob_encryptBlob_round_trip Reference.sodium
           reference_aead_correct Reference.zero_key [x68; x69]
           Reference.counting); reflexivity.
Defined.


(** C4 at the envelope ["000:a:b"] and at the blob of the bytes of
    ["000"]. *)
Lemma version_error_iff_older_witness :
  outcome (decrypt (sodium := Reference.sodium) Reference.zero_key "000:a:b"
             Reference.counting) = Throw (InvalidVersion "000")
  /\ outcome (decryptBlob (sodium := Reference.sodium) Reference.zero_key
                [x30; x30; x30] Reference.counting)
     = Throw (InvalidVersion "000").
Proof.
  destruct (@version_error_iff_older Reference.sodium)
    as (Htext & Hblob & _).
  split.
  - apply (proj2 (Htext Reference.zero_key "000:a:b" Reference.counting "000")).
    split; reflexivity.
  - apply (proj2 (Hblob Reference.zero_key [x30; x30; x30] Reference.counting
                    "000")).
    split; reflexivity.
Defined.

(** C5 as stated fails.  The sample envelope followed by [":extra"] has
    four fields and decrypts to ["hello"]; the input ["000:a:b:c"] has four
    fields and the input ["000"] has one, and on both [decrypt] throws the
    version error, which is not a format error. *)
Lemma decrypt_accepts_four_fields :
  (List.length
     (split_all ":"
        "001:000102030405060708090a0b0c0d0e0f1011121314151617:b2xsZWgAAQIDBAUGBwAAAAAAAAAA:extra")
   = 4
   /\ outcome
        (decrypt (sodium := Reference.sodium) Reference.zero_key
           "001:000102030405060708090a0b0c0d0e0f1011121314151617:b2xsZWgAAQIDBAUGBwAAAAAAAAAA:extra"
           Reference.counting)
      = Ok (Some "hello"))
  /\ (List.length (split_all ":" "000:a:b:c") = 4
      /\ outcome (decrypt (sodium := Reference.sodium) Reference.zero_key
                    "000:a:b:c" Reference.counting)
         = Throw (InvalidVersion "000"))
  /\ (List.length (split_all ":" "000") = 1
      /\ outcome (decrypt (sodium := Reference.sodium) Reference.zero_key
                    "000" Reference.counting)
         = Throw (InvalidVersion "000")).
Proof. repeat split; vm_compute; reflexivity. Qed.

(** C5 as amended, at the input ["001"] of one field. *)
Lemma decrypt_reads_three_fields_witness :
  outcome (decrypt (sodium := Reference.sodium) Reference.zero_key "001"
             Reference.counting) = Throw DecodingError.
Proof.
  apply (proj2 (@decrypt_reads_three_fields Reference.sodium
                  Reference.zero_key "001" Reference.counting)
           ltac:(vm_compute; lia) "001" eq_refl).
Defined.

(** C6 at the sample envelope. *)
Lemma encrypt_envelope_shape_witness :
  exists nonce ciphertext,
    Reference.sample_envelope = ("001" ++ ":" ++ nonce ++ ":" ++ ciphertext)%string
    /\ String.length Defaults.Version = 3
    /\ String.length nonce = 48
    /\ string_forallb is_hex_char nonce = true
    /\ string_forallb is_base64_char ciphertext = true
    /\ (exists bytes, base64ToArrayBuffer ciphertext = Ok bytes)
    /\ count_char ":" Reference.sample_envelope = 2.
Proof.
  apply (@encrypt_envelope_shape Reference.sodium Reference.zero_key "hello"
           Reference.counting Reference.sample_envelope).
  reflexivity.
Defined.

(** C7 on the reference derivation: [hash] returns for the salt ["zz"],
    [hashPassword] throws. *)
Example hash_of_non_hex_salt :
  outcome (hash (sha256 := Reference.sha256) "k" "zz" None Reference.counting)
  = Ok "7a7a6b0000000000000000000000000000000000000000000000000000000000"
  /\ outcome (hashPassword (sodium := Reference.sodium) "k" "zz" None None None
                Reference.counting)
     = Throw DecodingError.
Proof. split; reflexivity. Qed.

(** C10 at a nonce of one byte (text) and at a blob of four bytes: the
    short nonce reaches the primitive, which is the one to refuse it. *)
Lemma decrypt_has_no_nonce_length_check_witness :
  decrypt (sodium := Reference.sodium) Reference.zero_key "001:00:AAAA"
    Reference.counting
  = (Throw (PrimitiveError "invalid length"), Reference.counting)
  /\ decryptBlob (sodium := Reference.sodium) Reference.zero_key
       [x30; x30; x31; x00] Reference.counting
     = (Throw (PrimitiveError "invalid length"), Reference.counting).
Proof.
  destruct (@decrypt_has_no_nonce_length_check Reference.sodium)
    as (_ & _ & Htext & Hblob).
  split.
  - apply (Htext Reference.zero_key "001" "00" "AAAA"
             Reference.zero_key_bytes [x00] [x00; x00; x00]
             Reference.counting); reflexivity.
  - apply (Hblob Reference.zero_key Reference.zero_key_bytes
             [x30; x30; x31; x00] "001" Reference.counting); reflexivity.
Defined.

(* ================================================================= *)
(** * Part III: further properties of the operations                   *)
(* ================================================================= *)

(** ** Helpers *)

Lemma hex_injective (a b : Uint8Array) :
  arrayBufferToHexString a = arrayBufferToHexString b -> a = b.
Proof.
  intros H. pose proof (from_hex_to_hex a) as Ha.
  rewrite H, from_hex_to_hex in Ha. congruence.
Qed.


Lemma random_length (rng : Entropy) (n : nat) :
  List.length (map rng (seq 0 n)) = n.
Proof. now rewrite length_map, length_seq. Qed.

Lemma firstn_exact {A} (a b : list A) (n : nat) :
  List.length a = n -> firstn n (a ++ b) = a.
Proof.
  intros <-. rewrite firstn_app, Nat.sub_diag, firstn_all2 by lia.
  apply app_nil_r.
Qed.


(** The three regions of a blob that starts with three bytes. *)
Lemma blob_regions (version rest : Uint8Array) :
  List.length version = 3 ->
  slice 0 3 (version ++ rest) = version
  /\ slice 3 27 (version ++ rest) = firstn 24 rest
  /\ slice_from 27 (version ++ rest) = skipn 24 rest.
Proof.
  destruct version as [|a [|b [|c [|d version]]]]; try discriminate.
  intros _. repeat split.
Qed.

Section RunFacts.

Context {sodium : Sodium} {sha256 : Sha256}.

(** What [encrypt] returned, it made this way. *)
Lemma encrypt_returns (key : HexString) (plaintext : Utf8String)
    (rng : Entropy) (envelope : EncryptedMessage) :
  outcome (encrypt key plaintext rng) = Ok envelope ->
  exists keyBuffer c,
    hexStringToArrayBuffer key = Ok keyBuffer
    /\ crypto_aead_xchacha20poly1305_ietf_encrypt
         (stringToArrayBuffer plaintext) (map rng (seq 0 24)) keyBuffer
       = Returned c
    /\ envelope = join STRING_PARTITION
                    [Defaults.Version;
                     arrayBufferToHexString (map rng (seq 0 24));
                     arrayBufferToBase64 c].
Proof.
  rewrite encrypt_run. cbv zeta. cbn [outcome fst].
  destruct (hexStringToArrayBuffer key) as [keyBuffer|e]; [|discriminate].
  destruct (crypto_aead_xchacha20poly1305_ietf_encrypt _ _ keyBuffer)
    as [c|msg] eqn:E; [|discriminate].
  intros H. apply Ok_inj in H. subst envelope.
  exists keyBuffer, c. now rewrite E.
Qed.

Lemma encryptBlob_returns (key : HexString) (plainblob : Uint8Array)
    (rng : Entropy) (blob : EncryptedBlobMessage) :
  outcome (encryptBlob key plainblob rng) = Ok blob ->
  exists keyBuffer c,
    hexStringToArrayBuffer key = Ok keyBuffer
    /\ crypto_aead_xchacha20poly1305_ietf_encrypt
         plainblob (map rng (seq 0 24)) keyBuffer = Returned c
    /\ blob = stringToArrayBuffer Defaults.Version ++ map rng (seq 0 24) ++ c.
Proof.
  rewrite encryptBlob_run. cbv zeta. cbn [outcome fst].
  destruct (hexStringToArrayBuffer key) as [keyBuffer|e]; [|discriminate].
  destruct (crypto_aead_xchacha20poly1305_ietf_encrypt _ _ keyBuffer)
    as [c|msg] eqn:E; [|discriminate].
  intros H. apply Ok_inj in H. subst blob.
  exists keyBuffer, c. now rewrite E.
Qed.

(** The fields of an envelope that [encrypt] made. *)
Lemma envelope_fields (nonceBuffer c : Uint8Array) :
  split STRING_PARTITION 3
    (join STRING_PARTITION
       [Defaults.Version; arrayBufferToHexString nonceBuffer;
        arrayBufferToBase64 c])
  = [Defaults.Version; arrayBufferToHexString nonceBuffer;
     arrayBufferToBase64 c].
Proof.
  apply split_three.
  - reflexivity.
  - apply hex_free_of_partition, hex_is_hex.
  - apply base64_free_of_partition, base64_is_base64.
Qed.


(** The decryption helpers leave the random source alone. *)
Lemma xChaChaDecrypt_state (key : HexString) (ciphertext nonce : option string)
    (rng : Entropy) :
  snd (xChaChaDecrypt key ciphertext nonce rng) = rng.
Proof.
  unfold xChaChaDecrypt, decode_arg. run.
  destruct ciphertext as [c|]; [destruct (base64ToArrayBuffer c)|];
    try reflexivity.
  destruct nonce as [n|]; [destruct (hexStringToArrayBuffer n)|];
    try reflexivity.
  destruct (hexStringToArrayBuffer key); try reflexivity.
  destruct (crypto_aead_xchacha20poly1305_ietf_decrypt _ _ _) as [[m|]|msg];
    try reflexivity.
  destruct (arrayBufferToString m); reflexivity.
Qed.



End RunFacts.

(** ** Generated keys and salts *)

(** X1. [generateEncryptionKey] draws 32 bytes and returns them as 64 hex
    characters, a key that decodes to those 32 bytes; [generateSalt] draws
    16 bytes and returns them as 32 hex characters that decode to those 16
    bytes. *)
Theorem generated_key_and_salt :
  forall rng : Entropy,
    (exists key,
        generateEncryptionKey rng = (Ok key, fun i => rng (32 + i))
        /\ is_key key = true
        /\ hexStringToArrayBuffer key = Ok (map rng (seq 0 32)))
    /\ (exists salt,
          generateSalt rng = (Ok salt, fun i => rng (16 + i))
          /\ String.length salt = 32
          /\ string_forallb is_hex_char salt = true
          /\ hexStringToArrayBuffer salt = Ok (map rng (seq 0 16))).
Proof.
  intros rng. split.
  - exists (arrayBufferToHexString (map rng (seq 0 32))).
    split; [reflexivity|]. split; [|apply hex_round_trip].
    unfold is_key. rewrite hex_length, random_length, hex_is_hex. reflexivity.
  - exists (arrayBufferToHexString (map rng (seq 0 16))).
    split; [reflexivity|]. split; [|split; [apply hex_is_hex | apply hex_round_trip]].
    now rewrite hex_length, random_length.
Qed.

Section Further.

Context {sodium : Sodium} {sha256 : Sha256}.


(** X3. The layout of a blob envelope: whatever [encryptBlob] returns is
    the 3 bytes of ["001"], then the 24 bytes it drew from the random
    source, then what the AEAD returned for the blob under those 24 bytes
    and the decoded key; the three slices of [decryptBlob] cut it back into
    these regions, and it is 27 bytes longer than the ciphertext. *)
Theorem encryptBlob_envelope_layout :
  forall (key : HexString) (plainblob : Uint8Array) (rng : Entropy)
         (blob : EncryptedBlobMessage),
    outcome (encryptBlob key plainblob rng) = Ok blob ->
    exists keyBuffer cipherblob,
      hexStringToArrayBuffer key = Ok keyBuffer
      /\ crypto_aead_xchacha20poly1305_ietf_encrypt
           plainblob (map rng (seq 0 24)) keyBuffer = Returned cipherblob
      /\ blob = [x30; x30; x31] ++ map rng (seq 0 24) ++ cipherblob
      /\ slice 0 3 blob = [x30; x30; x31]
      /\ slice 3 27 blob = map rng (seq 0 24)
      /\ slice_from 27 blob = cipherblob
      /\ List.length blob = 27 + List.length cipherblob.
Proof.
  intros key plainblob rng blob H.
  destruct (encryptBlob_returns _ _ _ _ H) as (kb & c & Hk & Hc & ->).
  exists kb, c.
  destruct (blob_layout (map rng (seq 0 24)) c (random_length rng 24))
    as (Hv & Hn & Hr).
  repeat (split; [assumption || reflexivity|]).
  change (stringToArrayBuffer Defaults.Version) with [x30; x30; x31].
  rewrite !length_app, random_length. reflexivity.
Qed.

(** X4. The nonce check of the blob path always passes: [encryptBlob]
    never throws a nonce-length error, for every key, blob and state of
    the random source. *)
Theorem encryptBlob_nonce_check_passes :
  forall (key : HexString) (plainblob : Uint8Array) (rng : Entropy),
    nonce_length_error (outcome (encryptBlob key plainblob rng)) = false.
Proof.
  intros key plainblob rng. rewrite encryptBlob_run. cbv zeta.
  cbn [outcome fst].
  destruct (hexStringToArrayBuffer key) as [kb|e] eqn:E.
  - destruct (crypto_aead_xchacha20poly1305_ietf_encrypt _ _ kb); reflexivity.
  - now rewrite (hex_decode_error _ _ E).
Qed.

(** X5. Different nonces, different envelopes: two envelopes returned by
    [encrypt] (or by [encryptBlob]) from random sources whose next 24
    bytes differ are different, whatever the keys and the plaintexts. *)
Theorem distinct_nonces_distinct_envelopes :
  forall (rng1 rng2 : Entropy),
    map rng1 (seq 0 24) <> map rng2 (seq 0 24) ->
    (forall (key1 key2 : HexString) (plaintext1 plaintext2 : Utf8String)
            (envelope1 envelope2 : EncryptedMessage),
        outcome (encrypt key1 plaintext1 rng1) = Ok envelope1 ->
        outcome (encrypt key2 plaintext2 rng2) = Ok envelope2 ->
        envelope1 <> envelope2)
    /\ (forall (key1 key2 : HexString) (blob1 blob2 : Uint8Array)
               (envelope1 envelope2 : EncryptedBlobMessage),
        outcome (encryptBlob key1 blob1 rng1) = Ok envelope1 ->
        outcome (encryptBlob key2 blob2 rng2) = Ok envelope2 ->
        envelope1 <> envelope2).
Proof.
  intros rng1 rng2 Hdiff. split.
  - intros key1 key2 p1 p2 e1 e2 H1 H2 Heq.
    destruct (encrypt_returns _ _ _ _ H1) as (kb1 & c1 & _ & _ & ->).
    destruct (encrypt_returns _ _ _ _ H2) as (kb2 & c2 & _ & _ & ->).
    apply (f_equal (split STRING_PARTITION 3)) in Heq.
    rewrite !envelope_fields in Heq.
    apply Hdiff, hex_injective. congruence.
  - intros key1 key2 b1 b2 e1 e2 H1 H2 Heq.
    destruct (encryptBlob_returns _ _ _ _ H1) as (kb1 & c1 & _ & _ & ->).
    destruct (encryptBlob_returns _ _ _ _ H2) as (kb2 & c2 & _ & _ & ->).
    apply app_inv_head in Heq.
    apply (f_equal (firstn 24)) in Heq.
    rewrite !firstn_exact in Heq by apply random_length.
    exact (Hdiff Heq).
Qed.

(** X6. One nonce per encryption: [encrypt] and [encryptBlob] take exactly
    24 bytes from the random source, whether they return or throw;
    [decrypt] and [decryptBlob] take none; and of two encryptions in a row
    the first has the bytes 0..23 of the source as its nonce field and the
    second the bytes 24..47. *)
Theorem one_nonce_per_encryption :
  forall (key1 key2 : HexString) (plaintext1 plaintext2 : Utf8String)
         (plainblob : Uint8Array) (rng : Entropy),
    snd (encrypt key1 plaintext1 rng) = (fun i => rng (24 + i))
    /\ snd (encryptBlob key1 plainblob rng) = (fun i => rng (24 + i))
    /\ (forall envelope, snd (decrypt key1 envelope rng) = rng)
    /\ (forall blob, snd (decryptBlob key1 blob rng) = rng)
    /\ (forall envelope1 envelope2,
          outcome ((e1 <- encrypt key1 plaintext1 ;;
                    e2 <- encrypt key2 plaintext2 ;;
                    resolve (e1, e2)) rng) = Ok (envelope1, envelope2) ->
          nth_error (split STRING_PARTITION 3 envelope1) 1
          = Some (arrayBufferToHexString (map rng (seq 0 24)))
          /\ nth_error (split STRING_PARTITION 3 envelope2) 1
             = Some (arrayBufferToHexString (map rng (seq 24 24)))).
Proof.
  intros key1 key2 p1 p2 plainblob rng.
  split; [now rewrite encrypt_run|]. split; [now rewrite encryptBlob_run|].
  split; [|split].
  - intros envelope.
    destruct (decrypt_version key1 envelope rng) as (v & _ & ->).
    destruct (string_lt v Defaults.Version); [reflexivity|].
    apply xChaChaDecrypt_state.
  - intros blob. rewrite decryptBlob_run.
    destruct (arrayBufferToString (slice 0 3 blob)) as [v|]; [|reflexivity].
    destruct (string_lt v Defaults.Version); [reflexivity|].
    now rewrite xChaChaDecryptBlob_run.
  - intros e1 e2. unfold await at 1.
    destruct (encrypt key1 p1 rng) as [[a|e] rng1] eqn:E1; [|discriminate].
    assert (Hrng1 : rng1 = fun i => rng (24 + i)).
    { change rng1 with (snd (Ok a, rng1)). rewrite <- E1. now rewrite encrypt_run. }
    subst rng1. unfold await, resolve.
    destruct (encrypt key2 p2 (fun i => rng (24 + i))) as [[b|e] rng2] eqn:E2;
      [|discriminate].
    cbn [outcome fst]. intros H. apply Ok_inj in H.
    injection H as -> ->.
    assert (H1 : outcome (encrypt key1 p1 rng) = Ok e1) by now rewrite E1.
    assert (H2 : outcome (encrypt key2 p2 (fun i => rng (24 + i))) = Ok e2)
      by now rewrite E2.
    destruct (encrypt_returns _ _ _ _ H1) as (kb1 & c1 & _ & _ & ->).
    destruct (encrypt_returns _ _ _ _ H2) as (kb2 & c2 & _ & _ & ->).
    rewrite !envelope_fields. split; reflexivity.
Qed.

(** X7. The key is decoded, not measured: [encrypt] and [encryptBlob]
    throw the decoding error exactly when the key is not valid hex; every
    other failure is the primitive's. *)
Theorem encrypt_decoding_error_iff_bad_key :
  forall (key : HexString) (plaintext : Utf8String) (plainblob : Uint8Array)
         (rng : Entropy),
    (outcome (encrypt key plaintext rng) = Throw DecodingError
     <-> from_hex key = None)
    /\ (outcome (encryptBlob key plainblob rng) = Throw DecodingError
        <-> from_hex key = None)
    /\ (forall e, outcome (encrypt key plaintext rng) = Throw e ->
                  from_below e = true)
    /\ (forall e, outcome (encryptBlob key plainblob rng) = Throw e ->
                  from_below e = true).
Proof.
  intros key plaintext plainblob rng.
  rewrite encrypt_run, encryptBlob_run. cbv zeta. cbn [outcome fst].
  unfold hexStringToArrayBuffer.
  destruct (from_hex key) as [kb|].
  - destruct (crypto_aead_xchacha20poly1305_ietf_encrypt
                (stringToArrayBuffer plaintext) _ kb);
      destruct (crypto_aead_xchacha20poly1305_ietf_encrypt plainblob _ kb);
      repeat split; intros; try discriminate;
      match goal with H : Throw _ = Throw _ |- _ => now injection H as <- end.
  - repeat split; intros; try reflexivity;
      match goal with H : Throw _ = Throw _ |- _ => now injection H as <- end.
Qed.

End Further.

(** ** Text and blob envelopes *)



Section TextAndBlob.

Context {sodium : Sodium} {sha256 : Sha256}.

(** X8. The version is checked, not authenticated: two text envelopes
    that differ only in their version field, both versions accepted,
    decrypt alike under every key; so do two blob envelopes that differ
    only in their first three bytes. *)
Theorem version_is_not_authenticated :
  (forall (key : HexString) (version1 version2 nonce ciphertext : string)
          (rng : Entropy),
      free_of STRING_PARTITION version1 -> free_of STRING_PARTITION version2 ->
      free_of STRING_PARTITION nonce -> free_of STRING_PARTITION ciphertext ->
      string_lt version1 Defaults.Version = false ->
      string_lt version2 Defaults.Version = false ->
      decrypt key (join STRING_PARTITION [version1; nonce; ciphertext]) rng
      = decrypt key (join STRING_PARTITION [version2; nonce; ciphertext]) rng)
  /\ (forall (key : HexString) (version1 version2 rest : Uint8Array)
             (text1 text2 : string) (rng : Entropy),
      List.length version1 = 3 -> List.length version2 = 3 ->
      arrayBufferToString version1 = Ok text1 ->
      arrayBufferToString version2 = Ok text2 ->
      string_lt text1 Defaults.Version = false ->
      string_lt text2 Defaults.Version = false ->
      decryptBlob key (version1 ++ rest) rng
      = decryptBlob key (version2 ++ rest) rng).
Proof.
  split.
  - intros key v1 v2 n c rng Hv1 Hv2 Hn Hc Ha1 Ha2.
    rewrite !decrypt_three_fields by assumption. now rewrite Ha1, Ha2.
  - intros key v1 v2 rest t1 t2 rng Hl1 Hl2 Ht1 Ht2 Ha1 Ha2.
    destruct (blob_regions v1 rest Hl1) as (H10 & H11 & H12).
    destruct (blob_regions v2 rest Hl2) as (H20 & H21 & H22).
    rewrite !decryptBlob_run, H10, H11, H12, H20, H21, H22.
    now rewrite Ht1, Ht2, Ha1, Ha2.
Qed.

(** X9. The text envelope is the blob envelope in text: from the same
    state of the random source, [encrypt] of a plaintext returns the
    version, the hex of the nonce region and the base64 of the ciphertext
    region of what [encryptBlob] returns for the UTF-8 bytes of the
    plaintext, joined by colons; and it throws what [encryptBlob]
    throws. *)
Theorem encrypt_renders_encryptBlob :
  forall (key : HexString) (plaintext : Utf8String) (rng : Entropy),
    outcome (encrypt key plaintext rng)
    = match outcome (encryptBlob key (stringToArrayBuffer plaintext) rng) with
      | Ok blob =>
          Ok (join STRING_PARTITION
                [Defaults.Version;
                 arrayBufferToHexString (slice 3 27 blob);
                 arrayBufferToBase64 (slice_from 27 blob)])
      | Throw e => Throw e
      end.
Proof.
  intros key plaintext rng. rewrite encrypt_run, encryptBlob_run. cbv zeta.
  cbn [outcome fst].
  destruct (hexStringToArrayBuffer key) as [kb|e]; [|reflexivity].
  destruct (crypto_aead_xchacha20poly1305_ietf_encrypt _ _ kb) as [c|msg];
    [|reflexivity].
  destruct (blob_layout (map rng (seq 0 24)) c (random_length rng 24))
    as (_ & Hn & Hc).
  now rewrite Hn, Hc.
Qed.



(** ** Derivation and encryption together *)


(** X13. A generated salt is accepted: [hashPassword] on the salt that
    [generateSalt] returns does not throw a decoding error; it hands the
    16 bytes drawn from the random source to the password hash, with the
    given parameters or their defaults, and returns the hex text of what
    the password hash returns. *)
Theorem generated_salt_is_accepted :
  forall (password : Utf8String) (iterations bytes length : option N)
         (rng : Entropy),
    outcome ((salt <- generateSalt ;;
              hashPassword password salt iterations bytes length) rng)
    = match crypto_pwhash (or_default Defaults.ArgonLength length)
              (stringToArrayBuffer password) (map rng (seq 0 16))
              (or_default Defaults.ArgonIterations iterations)
              (or_default Defaults.ArgonMemLimit bytes)
              crypto_pwhash_ALG_DEFAULT with
      | Returned derived => Ok (arrayBufferToHexString derived)
      | Raised msg => Throw (PrimitiveError msg)
      end.
Proof.
  intros password iterations bytes length rng. unfold await at 1.
  change (generateSalt rng)
    with (Ok (arrayBufferToHexString (map rng (seq 0 16))),
          fun i => rng (16 + i)).
  cbv iota. unfold hashPassword. run. rewrite hex_round_trip.
  destruct (crypto_pwhash _ _ _ _ _ _); reflexivity.
Qed.

(** ** What the decryption functions return *)



End TextAndBlob.

(** ** The salt of the password hash *)

Section Salt.

Context {sodium : Sodium}.

(** X16. [hashPassword] throws the decoding error exactly when the salt is
    not valid hex, and then before the password hash is called; every
    other failure is the primitive's; the password is not examined and the
    random source is not touched. *)
Theorem hashPassword_decoding_error_iff_bad_salt :
  forall (password : Utf8String) (salt : HexString)
         (iterations bytes length : option N) (rng : Entropy),
    (outcome (hashPassword password salt iterations bytes length rng)
     = Throw DecodingError
     <-> from_hex salt = None)
    /\ (forall e,
          outcome (hashPassword password salt iterations bytes length rng)
          = Throw e -> from_below e = true)
    /\ snd (hashPassword password salt iterations bytes length rng) = rng.
Proof.
  intros password salt iterations bytes length rng.
  unfold hashPassword, hexStringToArrayBuffer. run.
  destruct (from_hex salt) as [sb|].
  - destruct (crypto_pwhash _ _ sb _ _ _); cbn [fst snd];
      repeat split; intros; try discriminate;
      match goal with H : Throw _ = Throw _ |- _ => now injection H as <- end.
  - cbn [fst snd]. repeat split; intros; try reflexivity;
      match goal with H : Throw _ = Throw _ |- _ => now injection H as <- end.
Qed.

End Salt.

(** ** The further properties on the reference instance *)



(** X3 at the key of zeros and the two bytes [0x68 0x69]. *)
Lemma encryptBlob_envelope_layout_witness :
  exists keyBuffer cipherblob,
    hexStringToArrayBuffer Reference.zero_key = Ok keyBuffer
    /\ crypto_aead_xchacha20poly1305_ietf_encrypt (Sodium := Reference.sodium)
         [x68; x69] (map Reference.counting (seq 0 24)) keyBuffer
       = Returned cipherblob
    /\ Reference.sample_blob
       = [x30; x30; x31] ++ map Reference.counting (seq 0 24) ++ cipherblob
    /\ slice 0 3 Reference.sample_blob = [x30; x30; x31]
    /\ slice 3 27 Reference.sample_blob = map Reference.counting (seq 0 24)
    /\ slice_from 27 Reference.sample_blob = cipherblob
    /\ List.length Reference.sample_blob = 27 + List.length cipherblob.
Proof.
  apply (@encryptBlob_envelope_layout Reference.sodium Reference.zero_key
           [x68; x69] Reference.counting Reference.sample_blob).
  reflexivity.
Defined.

(** X5 at the counting source and the source of zeros. *)
Lemma distinct_nonces_distinct_envelopes_witness :
  String.eqb Reference.sample_envelope
    "001:000000000000000000000000000000000000000000000000:b2xsZWgAAAAAAAAAAAAAAAAAAAAA"
  = false.
Proof.
  apply String.eqb_neq.
  apply (proj1 (@distinct_nonces_distinct_envelopes Reference.sodium
                  Reference.counting Reference.silent
                  ltac:(intros H; vm_compute in H; discriminate H))
           Reference.zero_key Reference.zero_key "hello" "hello");
    reflexivity.
Defined.

(** X8 at the versions ["001"] and ["002"]. *)
Lemma version_is_not_authenticated_witness :
  decrypt (sodium := Reference.sodium) Reference.zero_key
    (join STRING_PARTITION
       ["001"; Reference.sample_nonce_hex; Reference.sample_ciphertext])
    Reference.counting
  = decrypt (sodium := Reference.sodium) Reference.zero_key
      (join STRING_PARTITION
         ["002"; Reference.sample_nonce_hex; Reference.sample_ciphertext])
      Reference.counting.
Proof.
  apply (proj1 (@version_is_not_authenticated Reference.sodium)
           Reference.zero_key "001" "002" Reference.sample_nonce_hex
           Reference.sample_ciphertext Reference.counting); reflexivity.
Defined.




